(** * validator-keys-tool: master key file, sequence counter and manifest signing

    A shallow embedding of [src/ValidatorKeys.cpp], [ValidatorKeys.h] and
    [src/main.cpp].  The tool keeps a master key pair and a sequence number
    in a JSON key file, and signs manifests that bind a fresh ephemeral key
    to the master key at the next sequence number.

    The cryptography, the base58/base64 codecs, the binary serializer and
    the JSON text layer belong to ripple-libpp and boost; they are the
    members of the class [RippleLib] below, and the facts assumed of them
    are stated as named laws that theorems take as hypotheses.  The file
    has the model first (data, capabilities, [ValidatorKeys], main.cpp),
    then a small instance of the capabilities with the key files of the
    unit test, then the properties. *)

From Stdlib Require Import ZArith List Ascii String QArith.
From Stdlib.Strings Require Import Byte.
From stdpp Require Import base option list strings gmap pretty.

Set Warnings "-register-all".

Local Close Scope Q_scope.
Local Open Scope string_scope.
Local Open Scope Z_scope.

(** ** Machine integers and byte buffers *)

(** [std::numeric_limits<std::uint32_t>::max ()]. *)
Definition UINT32_MAX : Z := 4294967295.

(** Arithmetic on [std::uint32_t] wraps modulo 2^32. *)
Definition wrap32 (z : Z) : Z := z mod 2 ^ 32.

(** A value of type [std::uint32_t]. *)
Definition is_uint32 (z : Z) : Prop := 0 <= z <= UINT32_MAX.

(** [Slice], [Buffer] and the data of a [Serializer]: a run of bytes. *)
Definition Blob : Type := list byte.

#[global] Instance byte_eq_decision : EqDecision byte := byte_eq_dec.

(** ** Key types ([ripple/crypto/KeyType.h]) *)

(** Modelled from the spec: [enum class KeyType] is not among the sources.
    The key type is an "enum {Ed25519, Secp256k1} (closed set)"; [invalid]
    is the value line 88 of ValidatorKeys.cpp compares with. *)
Inductive KeyType : Type :=
| invalid
| secp256k1
| ed25519.

#[global] Instance KeyType_eq_decision : EqDecision KeyType.
Proof. solve_decision. Defined.

(** Modelled from the spec: [keyTypeFromString] of ripple/crypto/KeyType.h is
    not among the sources.  The key file's [key_type] is "one of two enum
    string tags"; every other string is [KeyType::invalid], the value line 88
    of ValidatorKeys.cpp tests for. *)
Definition keyTypeFromString (s : string) : KeyType :=
  if decide (s = "secp256k1") then secp256k1
  else if decide (s = "ed25519") then ed25519
  else invalid.

(** Modelled from the spec: [to_string (KeyType)] of ripple/crypto/KeyType.h
    is not among the sources.  It writes the tag [keyTypeFromString] reads
    (the guide's sample key file has ["key_type" : "ed25519"]). *)
Definition to_string (t : KeyType) : string :=
  match t with
  | secp256k1 => "secp256k1"
  | ed25519 => "ed25519"
  | invalid => "INVALID"
  end.

(** ** JSON values ([Json::Value]) *)

Module Json.

(** Modelled from the spec: [Json::Value] is not among the sources.  The
    record is "an abstract structured key-value input"; its values are of
    the eight JSON value types.  [Int] and [UInt] are 32 bits wide; a real
    is a (finite) double, kept as the rational it denotes. *)
Inductive Value : Type :=
| nullValue
| intValue (i : Z)
| uintValue (u : Z)
| realValue (r : Q)
| stringValue (s : string)
| booleanValue (b : bool)
| arrayValue (a : list Value)
| objectValue (o : list (string * Value)).

(** The outcome of a conversion: the library throws [Json::error] (a
    [std::runtime_error]) with a message when the type does not convert. *)
Inductive Checked (A : Type) : Type :=
| Converted (a : A)
| error (message : string).
Arguments Converted {A} a.
Arguments error {A} message.

(** Modelled from the spec: [Json::Value::isIntegral] is not among the
    sources.  A sequence is "a non-negative integer, representable in 32
    bits"; the library's test is on the type tag alone: signed integer,
    unsigned integer or boolean. *)
Definition isIntegral (v : Value) : bool :=
  match v with
  | intValue _ | uintValue _ | booleanValue _ => true
  | _ => false
  end.

End Json.

(** A parsed key file: the members of the JSON object at its root. *)
Abbreviation JsonObject := (gmap string Json.Value).

(** ** Signed objects ([STObject]) *)

(** Modelled from the spec: [SField] is not among the sources.  The fields
    of a manifest: [sequence], [masterPublicKey], [ephemeralPublicKey],
    [ephemeralSignature] and [masterSignature], under the names lines
    163-170 of ValidatorKeys.cpp give them. *)
Inductive SField : Type :=
| sfSequence
| sfPublicKey
| sfSigningPubKey
| sfSignature
| sfMasterSignature.

#[global] Instance SField_eq_decision : EqDecision SField.
Proof. solve_decision. Defined.

(** Modelled from the spec: the field values of ripple/protocol are not
    among the sources.  [sequence] is a "uint32"; keys and signatures are
    runs of bytes. *)
Inductive STValue : Type :=
| STUInt32 (v : Z)
| STBlob (b : Blob).

#[global] Instance STValue_eq_decision : EqDecision STValue.
Proof. solve_decision. Defined.

(** Modelled from the spec: [STObject] is not among the sources.  An object
    built from [sfGeneric] (line 162): its fields in the order they were
    set. *)
Definition STObject : Type := list (SField * STValue).

(** Modelled from the spec: [HashPrefix] is not among the sources.  The
    prefix put before the data that is signed; [HashPrefix::manifest] is
    the one the tool uses. *)
Inductive HashPrefix : Type :=
| HashPrefix_manifest.

(** Modelled from the spec: [PublicKey] is not among the sources.  A public
    key is the run of bytes that a manifest field holds. *)
Definition PublicKey : Type := Blob.

(** ** The external capabilities *)

(** What the tool calls in ripple-libpp, beast, jsoncpp and boost.  [Seed]
    and [SecretKey] are opaque. *)
Class RippleLib : Type := {
  Seed : Type;
  SecretKey : Type;
  (** ripple/protocol/SecretKey.h *)
  generateKeyPair : KeyType -> Seed -> PublicKey * SecretKey;
  generateSecretKey : KeyType -> Seed -> SecretKey;
  derivePublicKey : KeyType -> SecretKey -> PublicKey;
  (** [sign (KeyType, SecretKey, Slice)] and [verify (PublicKey, Slice m,
      Slice sig)]: the signature scheme on raw bytes. *)
  sign_Slice : KeyType -> SecretKey -> Blob -> Blob;
  verify_Slice : PublicKey -> Blob -> Blob -> bool;
  (** [toBase58 (TOKEN_NODE_PRIVATE, _)], [parseBase58<SecretKey>
      (TOKEN_NODE_PRIVATE, _)], [toBase58 (TOKEN_NODE_PUBLIC, _)] and
      [toBase58 (Seed)]. *)
  toBase58_NODE_PRIVATE : SecretKey -> string;
  parseBase58_NODE_PRIVATE : string -> option SecretKey;
  toBase58_NODE_PUBLIC : PublicKey -> string;
  toBase58_Seed : Seed -> string;
  (** [Serializer::add32] of a hash prefix, the serialization of a run of
      fields, and its reading back by [SerialIter]. *)
  Serializer_add32 : HashPrefix -> Blob;
  Serializer_addFields : list (SField * STValue) -> Blob;
  SerialIter_getFields : Blob -> option (list (SField * STValue));
  (** beast/core/detail/base64.hpp *)
  base64_encode : Blob -> string;
  base64_decode : string -> Blob;
  (** jsoncpp: the text of a value in an error message, the text of a
      double, and the lexical cast of a string to [unsigned int]. *)
  toStyledString : Json.Value -> string;
  to_string_double : Q -> string;
  lexicalCast_UInt : string -> option Z;
  (** boost/filesystem: [path::parent_path], the path without its last
      element, and empty when there is nothing before it. *)
  parent_path : string -> string
}.

(** ** Errors

    Every failure of the tool is a [std::runtime_error]; a constructor
    stands for one [throw] site and [what] gives its message. *)

Inductive Error : Type :=
| FailedToOpen (keyFile : string)
| ParseFailure (keyFile : string)
| MissingField (keyFile field : string)
| InvalidKeyType (keyFile : string) (value : Json.Value)
| InvalidSecret (keyFile : string) (value : Json.Value)
| InvalidSequence (keyFile : string) (value : Json.Value)
| JsonError (message : string)
| CannotCreateDirectory (parent : string)
| CannotOpenKeyFile (keyFile : string)
| RefusingToOverwrite (keyFile : string)
| SequenceNotIncreasing (current : Z)
| SequenceExhausted
| NoCommandSpecified
| WrongNumberOfParameters
| UnknownCommand.

(** A computation that returns or throws. *)
Inductive Result (A : Type) : Type :=
| OK (a : A)
| Throw (e : Error).
Arguments OK {A} a.
Arguments Throw {A} e.

#[global] Instance Result_ret : MRet Result := fun A a => OK a.
#[global] Instance Result_bind : MBind Result := fun A B f r =>
  match r with
  | OK a => f a
  | Throw e => Throw e
  end.

Definition isOK {A : Type} (r : Result A) : bool :=
  match r with
  | OK _ => true
  | Throw _ => false
  end.

(** The error classes of the sequence counter, as tests on a result. *)
Definition throwsSequenceExhausted {A : Type} (r : Result A) : bool :=
  match r with
  | Throw SequenceExhausted => true
  | _ => false
  end.

Definition throwsSequenceNotIncreasing {A : Type} (r : Result A) : bool :=
  match r with
  | Throw (SequenceNotIncreasing _) => true
  | _ => false
  end.

Definition throwsInvalidSequence {A : Type} (r : Result A) : bool :=
  match r with
  | Throw (InvalidSequence _ _) => true
  | _ => false
  end.

Definition throwsInvalidKeyType {A : Type} (r : Result A) : bool :=
  match r with
  | Throw (InvalidKeyType _ _) => true
  | _ => false
  end.

(** A [Json::error] surfaces as the [std::runtime_error] it is. *)
Definition liftJson {A : Type} (c : Json.Checked A) : Result A :=
  match c with
  | Json.Converted a => OK a
  | Json.error message => Throw (JsonError message)
  end.

(** The double quote character, for the messages that quote a field name. *)
Definition dquote : string := String (Ascii.ascii_of_nat 34) EmptyString.

(** ** The file system

    The key file is the one shared resource.  A file that opens for
    reading holds either a JSON document whose root is an object, or text
    the reader rejects; the text itself ([toStyledString] and
    [Json::Reader]) is not modelled, a document is stored as the value that
    was written.  Beside its files the file system has directories: those
    on record, and those that hold a file.

    [writeToFile] asks the file system for three things, and each can go
    wrong: the directories above the key file are made when they are
    missing (line 139), the file is opened and emptied (line 146), the text
    is written (line 151).  What the file system refuses, and what it
    leaves behind then, is part of its state, path by path. *)

Inductive FileContent : Type :=
| JsonDocument (jKeys : JsonObject)
| NotJson.

(** [DirectoryRefused made], on a directory: [create_directories] reports
    an error, having made the directories [made].  [OpenRefused], on a
    file: it does not open for writing.  [WriteLost remains], on a
    file: it opens, but the stream fails while the text is written, and the
    file holds [remains]. *)
Inductive WriteRefusal : Type :=
| DirectoryRefused (made : list string)
| OpenRefused
| WriteLost (remains : FileContent).

Record FileSystem : Type := {
  files : gmap string FileContent;
  directories : gset string;
  refusals : gmap string WriteRefusal
}.

(** The file at [p] holds [c] from now on. *)
Definition store (fs : FileSystem) (p : string) (c : FileContent) : FileSystem :=
  {| files := <[p := c]> (files fs);
     directories := directories fs;
     refusals := refusals fs |}.

(** The directories [made] are there from now on. *)
Definition mkdirs (fs : FileSystem) (made : list string) : FileSystem :=
  {| files := files fs;
     directories := directories fs ∪ list_to_set made;
     refusals := refusals fs |}.

Section Model.
Context `{L : RippleLib}.

(** ** boost/filesystem on the file system *)

(** Whether [p] is a regular file. *)
Definition is_regular_file (fs : FileSystem) (p : string) : bool :=
  bool_decide (is_Some (files fs !! p)).

(** Whether a file stands in [d]. *)
Definition holdsFile (fs : FileSystem) (d : string) : bool :=
  bool_decide (Exists (fun entry : string * FileContent => parent_path entry.1 = d)
                 (map_to_list (files fs))).

(** [is_directory]: a directory on record, or one that holds a file. *)
Definition is_directory (fs : FileSystem) (p : string) : bool :=
  bool_decide (p ∈ directories fs) || holdsFile fs p.

(** [exists]: there is a file or a directory at [p]. *)
Definition exists_ (fs : FileSystem) (p : string) : bool :=
  is_regular_file fs p || is_directory fs p.

(** [p] and the paths above it, [n] of them at most. *)
Fixpoint ancestors (n : nat) (p : string) : list string :=
  match n with
  | O => []
  | S n' =>
      if decide (p = EmptyString) then []
      else p :: ancestors n' (parent_path p)
  end.

(** [create_directories (p, ec)]: [p] and the directories above it are
    made; the value is [ec], set when the file system refuses. *)
Definition create_directories (p : string) (fs : FileSystem) : bool * FileSystem :=
  match refusals fs !! p with
  | Some (DirectoryRefused made) => (true, mkdirs fs made)
  | _ => (false, mkdirs fs (ancestors (String.length p) p))
  end.

(** [std::ofstream o (keyFile, std::ios_base::trunc)] and [o.fail ()]: a
    directory does not open as a file, nor does a file that the file system
    refuses; a file that opens is emptied, and an empty file is no JSON
    document. *)
Definition ofstream_open (keyFile : string) (fs : FileSystem) : option FileSystem :=
  if negb (is_regular_file fs keyFile) && is_directory fs keyFile then None
  else
    match refusals fs !! keyFile with
    | Some OpenRefused => None
    | _ => Some (store fs keyFile NotJson)
    end.

(** What the file holds after [o << jv.toStyledString ()]: the document,
    unless the stream fails, which the code does not look at. *)
Definition streamed (keyFile : string) (jv : JsonObject) (fs : FileSystem)
  : FileContent :=
  match refusals fs !! keyFile with
  | Some (WriteLost remains) => remains
  | _ => JsonDocument jv
  end.

Definition ofstream_write (keyFile : string) (jv : JsonObject) (fs : FileSystem)
  : FileSystem :=
  store fs keyFile (streamed keyFile jv fs).

(** The message of each error ([e.what ()]). *)
Definition what (e : Error) : string :=
  match e with
  | FailedToOpen keyFile => "Failed to open key file: " +:+ keyFile
  | ParseFailure keyFile => "Unable to parse json key file: " +:+ keyFile
  | MissingField keyFile field =>
      "Key file '" +:+ keyFile +:+ "' is missing " +:+ dquote +:+ field
        +:+ dquote +:+ " field"
  | InvalidKeyType keyFile value =>
      "Key file '" +:+ keyFile +:+ "' contains invalid key type: "
        +:+ toStyledString value
  | InvalidSecret keyFile value =>
      "Key file '" +:+ keyFile +:+ "' contains invalid master secret: "
        +:+ toStyledString value
  | InvalidSequence keyFile value =>
      "Key file '" +:+ keyFile +:+ "' contains invalid sequence: "
        +:+ toStyledString value
  | JsonError message => message
  | CannotCreateDirectory parent => "Cannot create directory: " +:+ parent
  | CannotOpenKeyFile keyFile => "Cannot open key file: " +:+ keyFile
  | RefusingToOverwrite keyFile =>
      "Refusing to overwrite existing key file: " +:+ keyFile
  | SequenceNotIncreasing current =>
      "Sequence should exceed current sequence (" +:+ pretty current +:+ ")."
  | SequenceExhausted =>
      "Sequence is already at maximum value. Master keys have been revoked."
  | NoCommandSpecified => "no command specified"
  | WrongNumberOfParameters => "Syntax effor: Wrong number of parameters"
  | UnknownCommand => "Unknown command"
  end.

(** ** Conversions of a [Json::Value] *)

(** Modelled from the spec: [Json::Value::asString] is not among the
    sources.  [key_type] and [master_secret] are string tags; a scalar of
    another type converts to its text, an array or an object does not
    convert. *)
Definition asString (v : Json.Value) : Json.Checked string :=
  match v with
  | Json.nullValue => Json.Converted EmptyString
  | Json.stringValue s => Json.Converted s
  | Json.booleanValue b => Json.Converted (if b then "true" else "false")
  | Json.intValue i => Json.Converted (pretty i)
  | Json.uintValue u => Json.Converted (pretty u)
  | Json.realValue r => Json.Converted (to_string_double r)
  | Json.arrayValue _ | Json.objectValue _ =>
      Json.error "Type is not convertible to string"
  end.

(** Modelled from the spec: [Json::Value::asUInt] is not among the sources.
    A sequence is "a non-negative integer, representable in 32 bits": an
    unsigned integer converts to itself and a signed one when it is not
    negative; the library refuses a negative one.  [make_ValidatorKeys]
    calls it on a value that passed [Json.isIntegral], so on an integer or
    a boolean (0 or 1); the other cases are the library's (null is 0, a
    real converts when it is in range, a string by lexical cast, an array
    or an object does not convert). *)
Definition asUInt (v : Json.Value) : Json.Checked Z :=
  match v with
  | Json.nullValue => Json.Converted 0
  | Json.intValue i =>
      if 0 <=? i then Json.Converted i
      else Json.error "Negative integer can not be converted to unsigned integer"
  | Json.uintValue u => Json.Converted u
  | Json.realValue r =>
      if Qle_bool 0 r && Qle_bool r (inject_Z UINT32_MAX)
      then Json.Converted (Qnum r / Zpos (Qden r))
      else Json.error "Real out of unsigned integer range"
  | Json.booleanValue b => Json.Converted (if b then 1 else 0)
  | Json.stringValue s =>
      match lexicalCast_UInt s with
      | Some u => Json.Converted u
      | None => Json.error "bad lexical cast"
      end
  | Json.arrayValue _ | Json.objectValue _ =>
      Json.error "Type is not convertible to uint"
  end.

(** Modelled from the spec: [Json::Reader] is not among the sources.  The
    sequence of a key file is a "non-negative integer, representable in 32
    bits"; read from text, it is an [Int] when it fits one and a [UInt]
    otherwise, whatever it was when written. *)
Definition readInteger (n : Z) : Json.Value :=
  if n <? 2 ^ 31 then Json.intValue n else Json.uintValue n.

(** A JSON integer within the range of its type: [Int] and [UInt] are 32
    bits wide. *)
Definition integerInRange (v : Json.Value) : Prop :=
  match v with
  | Json.intValue i => - 2 ^ 31 <= i < 2 ^ 31
  | Json.uintValue u => 0 <= u < 2 ^ 32
  | _ => True
  end.

(** The spec's words for a valid sequence, "representable as an unsigned
    32-bit integer", read on a JSON value: an integer between 0 and
    4294967295.  It is compared with the test the code makes
    ([Json.isIntegral]). *)
Definition spec_representable_as_uint32 (v : Json.Value) : bool :=
  match v with
  | Json.intValue i => (0 <=? i) && (i <=? UINT32_MAX)
  | Json.uintValue u => (0 <=? u) && (u <=? UINT32_MAX)
  | _ => false
  end.

(** Modelled from the spec: [Json::Value::isMember] is not among the
    sources.  A required key is "missing" when the record has no member of
    that name. *)
Definition isMember (jKeys : JsonObject) (field : string) : bool :=
  bool_decide (is_Some (jKeys !! field)).

(** Modelled from the spec: [Json::Value::operator[]] is not among the
    sources.  [jKeys[field]] is the member of that name, and [null] when
    there is none. *)
Definition member (jKeys : JsonObject) (field : string) : Json.Value :=
  default Json.nullValue (jKeys !! field).

(** ** [ValidatorKeys] *)

(** [class ValidatorKeys], ValidatorKeys.h lines 34-40.  [sequence_] is a
    [std::uint32_t]. *)
Record ValidatorKeys : Type := {
  keyType_ : KeyType;
  masterSecret_ : SecretKey;
  validationPublicKey_ : PublicKey;
  sequence_ : Z
}.

(** [struct EphemeralKeys]: [seed], [manifest], [validationPublicKey]. *)
Record EphemeralKeys : Type := {
  eph_seed : Seed;
  eph_manifest : string;
  eph_validationPublicKey : PublicKey
}.

(** [ValidatorKeys::ValidatorKeys (KeyType const&)], lines 30-39; [seed] is
    what [randomSeed ()] returned. *)
Definition ValidatorKeys_new (keyType : KeyType) (seed : Seed) : ValidatorKeys :=
  let kp := generateKeyPair keyType seed in
  {| keyType_ := keyType;
     masterSecret_ := kp.2;
     validationPublicKey_ := kp.1;
     sequence_ := 0 |}.

(** [operator==], ValidatorKeys.h lines 63-68: the secret is not compared. *)
Definition ValidatorKeys_eqb (lhs rhs : ValidatorKeys) : bool :=
  bool_decide (sequence_ lhs = sequence_ rhs)
  && bool_decide (keyType_ lhs = keyType_ rhs)
  && bool_decide (validationPublicKey_ lhs = validationPublicKey_ rhs).

(** A member function runs on the object: it returns a value and leaves
    the object in some state. *)
Definition Method (A : Type) : Type := ValidatorKeys -> A * ValidatorKeys.

Definition ret {A : Type} (a : A) : Method A := fun this => (a, this).

Definition bind {A B : Type} (m : Method A) (f : A -> Method B) : Method B :=
  fun this => let (a, this') := m this in f a this'.

Notation "'call' x <- m ; k" := (bind m (fun x => k))
  (at level 10, x name, m at level 100, k at level 200).

(** The accessors, ValidatorKeys.h lines 70-92. *)
Definition keyType : Method KeyType := fun this => (keyType_ this, this).
Definition masterSecret : Method SecretKey := fun this => (masterSecret_ this, this).
Definition validationPublicKey : Method PublicKey :=
  fun this => (validationPublicKey_ this, this).
Definition sequence : Method Z := fun this => (sequence_ this, this).

(** [setSequence], ValidatorKeys.h lines 94-98. *)
Definition setSequence (sequence : Z) : Method unit := fun this =>
  (tt, {| keyType_ := keyType_ this;
          masterSecret_ := masterSecret_ this;
          validationPublicKey_ := validationPublicKey_ this;
          sequence_ := sequence |}).

(** ** [STObject]: fields, canonical order, signing *)

(** Modelled from the spec: [STObject::operator[]] is not among the
    sources.  [st[f] = v] replaces the field where it stands, or adds it at
    the end. *)
Fixpoint STObject_assign (st : STObject) (f : SField) (v : STValue) : STObject :=
  match st with
  | [] => [(f, v)]
  | (g, w) :: rest =>
      if decide (g = f) then (f, v) :: rest
      else (g, w) :: STObject_assign rest f v
  end.

(** Modelled from the spec: [get (STObject const&, SField)] is not among
    the sources.  The field's value, if the field is present. *)
Fixpoint STObject_get (st : STObject) (f : SField) : option STValue :=
  match st with
  | [] => None
  | (g, w) :: rest => if decide (g = f) then Some w else STObject_get rest f
  end.

(** Modelled from the spec: the field codes of ripple/protocol/SField.h are
    not among the sources.  The manifest's fields come "in a fixed canonical
    order": sequence, masterPublicKey, ephemeralPublicKey,
    ephemeralSignature, masterSignature.  The codes are (type << 16 | index),
    the ones the guide's sample manifest is laid out by (0x24, 0x71, 0x73,
    0x76, 0x70 0x12). *)
Definition fieldCode (f : SField) : Z :=
  match f with
  | sfSequence => Z.lor (Z.shiftl 2 16) 4
  | sfPublicKey => Z.lor (Z.shiftl 7 16) 1
  | sfSigningPubKey => Z.lor (Z.shiftl 7 16) 3
  | sfSignature => Z.lor (Z.shiftl 7 16) 6
  | sfMasterSignature => Z.lor (Z.shiftl 7 16) 18
  end.

(** Modelled from the spec: [SField::isSigningField] is not among the
    sources.  Both signatures are "over the record with masterPublicKey,
    sequence, ephemeralPublicKey fields": the two signature fields are no
    part of what is signed. *)
Definition isSigningField (f : SField) : bool :=
  match f with
  | sfSignature | sfMasterSignature => false
  | _ => true
  end.

(** Modelled from the spec: one step of the sort of [STObject::add], which
    is not among the sources.  A field is put before the first field whose
    code is not below its own. *)
Fixpoint insertField (x : SField * STValue) (l : list (SField * STValue))
  : list (SField * STValue) :=
  match l with
  | [] => [x]
  | y :: rest =>
      if fieldCode x.1 <=? fieldCode y.1 then x :: y :: rest
      else y :: insertField x rest
  end.

(** Modelled from the spec: the sort of [STObject::add] is not among the
    sources.  The fields "in canonical order", that is by field code
    ([insertField] puts one field in its place). *)
Definition sortFields (l : list (SField * STValue)) : list (SField * STValue) :=
  foldr insertField [] l.

(** Modelled from the spec: [STObject::add] is not among the sources.
    "Serialize the complete record (all fields in canonical order, each
    length/type-tagged) to a byte buffer". *)
Definition STObject_add (st : STObject) : Blob :=
  Serializer_addFields (sortFields st).

(** Modelled from the spec: the fields of the "pre-signature record", those
    [isSigningField] keeps. *)
Fixpoint signingFields (st : STObject) : STObject :=
  match st with
  | [] => []
  | (f, v) :: rest =>
      if isSigningField f then (f, v) :: signingFields rest
      else signingFields rest
  end.

(** Modelled from the spec: [STObject::addWithoutSigningFields] is not among
    the sources.  The pre-signature record in canonical order. *)
Definition STObject_addWithoutSigningFields (st : STObject) : Blob :=
  Serializer_addFields (sortFields (signingFields st)).

(** Modelled from the spec: the bytes a signature of [st] is over, the hash
    prefix followed by the pre-signature record (the [Serializer] that
    [sign] and [verify] fill is not among the sources). *)
Definition signingData (prefix : HashPrefix) (st : STObject) : Blob :=
  (Serializer_add32 prefix ++ STObject_addWithoutSigningFields st)%list.

(** Modelled from the spec: [sign (STObject&, HashPrefix, KeyType, SecretKey,
    SF_Blob sigField)] of ripple/protocol/Sign.h is not among the sources.
    The signature is "over the record with masterPublicKey, sequence,
    ephemeralPublicKey fields" and is stored in [sigField]; the test's
    [verify] of the ephemeral signature on the complete manifest (both
    signatures present) passes only if signature fields are left out of the
    signed bytes. *)
Definition sign (st : STObject) (prefix : HashPrefix) (type : KeyType)
    (sk : SecretKey) (sigField : SField) : STObject :=
  STObject_assign st sigField (STBlob (sign_Slice type sk (signingData prefix st))).

(** Modelled from the spec: [verify (STObject const&, HashPrefix, PublicKey,
    SF_Blob sigField)] of ripple/protocol/Sign.h is not among the sources.
    It checks the signature held in [sigField] against the bytes [sign]
    signs; an object without the field does not verify. *)
Definition verify (st : STObject) (prefix : HashPrefix) (pk : PublicKey)
    (sigField : SField) : bool :=
  match STObject_get st sigField with
  | Some (STBlob sig) => verify_Slice pk (signingData prefix st) sig
  | _ => false
  end.

(** ** [make_ValidatorKeys], ValidatorKeys.cpp lines 53-120 *)

Definition requiredFields : list string := ["key_type"; "master_secret"; "sequence"].

(** The loop of lines 77-85. *)
Fixpoint requireFields (keyFile : string) (jKeys : JsonObject) (fields : list string)
  : Result unit :=
  match fields with
  | [] => OK tt
  | field :: rest =>
      if negb (isMember jKeys field) then Throw (MissingField keyFile field)
      else requireFields keyFile jKeys rest
  end.

(** Lines 71-119: from the parsed document to the keys. *)
Definition make_ValidatorKeys_json (keyFile : string) (jKeys : JsonObject)
  : Result ValidatorKeys :=
  _ ← requireFields keyFile jKeys requiredFields;
  s ← liftJson (asString (member jKeys "key_type"));
  let keyType := keyTypeFromString s in
  if decide (keyType = invalid)
  then Throw (InvalidKeyType keyFile (member jKeys "key_type"))
  else
    s ← liftJson (asString (member jKeys "master_secret"));
    match parseBase58_NODE_PRIVATE s with
    | None => Throw (InvalidSecret keyFile (member jKeys "master_secret"))
    | Some masterSecret =>
        let validationPublicKey := derivePublicKey keyType masterSecret in
        if negb (Json.isIntegral (member jKeys "sequence"))
        then Throw (InvalidSequence keyFile (member jKeys "sequence"))
        else
          sequence ← liftJson (asUInt (member jKeys "sequence"));
          OK {| keyType_ := keyType;
                masterSecret_ := masterSecret;
                validationPublicKey_ := validationPublicKey;
                sequence_ := sequence |}
    end.

Definition make_ValidatorKeys (keyFile : string) (fs : FileSystem)
  : Result ValidatorKeys :=
  match files fs !! keyFile with
  | None => Throw (FailedToOpen keyFile)
  | Some NotJson => Throw (ParseFailure keyFile)
  | Some (JsonDocument jKeys) => make_ValidatorKeys_json keyFile jKeys
  end.

(** ** [writeToFile], ValidatorKeys.cpp lines 122-152 *)

(** Lines 128-133: the document that is written. *)
Definition writeToFile_json : Method JsonObject :=
  call ms <- masterSecret;
  call pk <- validationPublicKey;
  call kt <- keyType;
  call sq <- sequence;
  ret (<["sequence" := Json.uintValue sq]>
       (<["key_type" := Json.stringValue (to_string kt)]>
        (<["validation_public_key" := Json.stringValue (toBase58_NODE_PUBLIC pk)]>
         (<["master_secret" := Json.stringValue (toBase58_NODE_PRIVATE ms)]> ∅)))).

(** Lines 135-144: the directory of the key file is made when it is
    missing.  The file system is left as [create_directories] left it, also
    when this throws. *)
Definition makeParentDirectory (keyFile : string) (fs : FileSystem)
  : Result unit * FileSystem :=
  let parent := parent_path keyFile in
  if decide (parent = EmptyString) then (OK tt, fs)
  else
    let (ec, fs) :=
      if negb (exists_ fs parent) then create_directories parent fs
      else (false, fs) in
    if ec || negb (is_directory fs parent)
    then (Throw (CannotCreateDirectory parent), fs)
    else (OK tt, fs).

(** Lines 135-151.  The value is what the call does, return or throw, and
    the file system it leaves: the directories that were made stay when the
    file does not open, and the file that was opened stays emptied, or
    holds what reached it, when the text does not. *)
Definition writeToFile (keyFile : string) (fs : FileSystem)
  : Method (Result unit * FileSystem) :=
  call jv <- writeToFile_json;
  ret (match makeParentDirectory keyFile fs with
       | (Throw e, fs) => (Throw e, fs)
       | (OK _, fs) =>
           match ofstream_open keyFile fs with
           | None => (Throw (CannotOpenKeyFile keyFile), fs)
           | Some fs => (OK tt, ofstream_write keyFile jv fs)
           end
       end).

(** ** [createEphemeralKeys], ValidatorKeys.cpp lines 154-178

    [seed] is what [randomSeed ()] returned. *)

Definition createEphemeralKeys (ephKeyType : KeyType) (seed : Seed)
  : Method EphemeralKeys :=
  let ssk := generateSecretKey ephKeyType seed in
  let spk := derivePublicKey ephKeyType ssk in
  let st : STObject := [] in
  call sq <- sequence;
  let st := STObject_assign st sfSequence (STUInt32 sq) in
  call pk <- validationPublicKey;
  let st := STObject_assign st sfPublicKey (STBlob pk) in
  let st := STObject_assign st sfSigningPubKey (STBlob spk) in
  let st := sign st HashPrefix_manifest ephKeyType ssk sfSignature in
  call kt <- keyType;
  call ms <- masterSecret;
  let st := sign st HashPrefix_manifest kt ms sfMasterSignature in
  let s := STObject_add st in
  ret {| eph_seed := seed;
         eph_manifest := base64_encode s;
         eph_validationPublicKey := spk |}.

(** The object [st] of lines 162-165, before it is signed. *)
Definition unsignedManifest (this : ValidatorKeys) (ephKeyType : KeyType)
    (seed : Seed) : STObject :=
  [(sfSequence, STUInt32 (sequence_ this));
   (sfPublicKey, STBlob (validationPublicKey_ this));
   (sfSigningPubKey,
    STBlob (derivePublicKey ephKeyType (generateSecretKey ephKeyType seed)))].

(** The object [st] of line 171, with both signatures. *)
Definition signedManifest (this : ValidatorKeys) (ephKeyType : KeyType)
    (seed : Seed) : STObject :=
  sign (sign (unsignedManifest this ephKeyType seed) HashPrefix_manifest
          ephKeyType (generateSecretKey ephKeyType seed) sfSignature)
       HashPrefix_manifest (keyType_ this) (masterSecret_ this) sfMasterSignature.

(** The test's reading of a manifest (ValidatorKeys_test lines 227-230):
    base64 decoding, then [STObject::set] on a [SerialIter]. *)
Definition decodeManifest (manifest : string) : option STObject :=
  SerialIter_getFields (base64_decode manifest).

(** ** main.cpp *)

(** What the process acts on: the file system and standard output. *)
Record World : Type := {
  fs : FileSystem;
  cout : string
}.

Definition print (w : World) (text : string) : World :=
  {| fs := fs w; cout := cout w +:+ text |}.

Definition endl : string := String (Ascii.ascii_of_nat 10) EmptyString.

(** [createKeyFile], lines 54-71. *)
Definition createKeyFile (keyFile : string) (seed : Seed) (w : World)
  : Result unit * World :=
  if exists_ (fs w) keyFile then (Throw (RefusingToOverwrite keyFile), w)
  else
    let keys := ValidatorKeys_new ed25519 seed in
    match writeToFile keyFile (fs w) keys with
    | ((Throw e, fs'), _) => (Throw e, {| fs := fs'; cout := cout w |})
    | ((OK _, fs'), _) =>
        (OK tt,
         print {| fs := fs'; cout := cout w |}
               ("Master validator keys stored in " +:+ keyFile +:+ endl))
    end.

(** Lines 80-95 of [signManifest]: the step of the sequence counter, on the
    keys just loaded.  A throw leaves the keys as they were. *)
Definition advanceSequence (requested : option Z) : Method (Result unit) :=
  match requested with
  | Some requested =>
      call current <- sequence;
      if requested <=? current
      then ret (Throw (SequenceNotIncreasing current))
      else
        call _ <- setSequence requested;
        ret (OK tt)
  | None =>
      call current <- sequence;
      if current =? UINT32_MAX
      then ret (Throw SequenceExhausted)
      else
        call _ <- setSequence (wrap32 (current + 1));
        ret (OK tt)
  end.

(** The step [runCommand] asks for on "revoke_master_keys" (line 136):
    the sequence [std::numeric_limits<std::uint32_t>::max ()] is requested. *)
Definition revokeSequence : Method (Result unit) :=
  advanceSequence (Some UINT32_MAX).

(** The loop of lines 109-111: the manifest in lines of [len] characters. *)
Fixpoint printWrapped (n : nat) (len : nat) (text : string) : string :=
  match n with
  | O => EmptyString
  | S n' =>
      if decide (text = EmptyString) then EmptyString
      else
        String.substring 0 len text +:+ endl
          +:+ printWrapped n' len
                (String.substring len (String.length text - len) text)
  end.

(** [signManifest], lines 73-117. *)
Definition signManifest (keyFile : string) (requested : option Z) (seed : Seed)
    (w : World) : Result unit * World :=
  match make_ValidatorKeys keyFile (fs w) with
  | Throw e => (Throw e, w)
  | OK keys =>
      match advanceSequence requested keys with
      | (Throw e, _) => (Throw e, w)
      | (OK _, keys) =>
          let w :=
            if sequence_ keys =? UINT32_MAX
            then print w ("WARNING: This will revoke your master keys!"
                            +:+ endl +:+ endl)
            else w in
          let (ephemeralKeys, keys) := createEphemeralKeys secp256k1 seed keys in
          let w := print w ("Update rippled.cfg file with these values:"
                              +:+ endl +:+ endl) in
          let w := print w ("[validation_seed]" +:+ endl
                              +:+ toBase58_Seed (eph_seed ephemeralKeys) +:+ endl) in
          let w := print w ("# validation_public_key: "
                              +:+ toBase58_NODE_PUBLIC
                                    (eph_validationPublicKey ephemeralKeys)
                              +:+ endl) in
          let w := print w ("# sequence number: " +:+ pretty (sequence_ keys)
                              +:+ endl +:+ endl) in
          let w := print w ("[validation_manifest]" +:+ endl) in
          let w := print w (printWrapped
                              (String.length (eph_manifest ephemeralKeys)) 72
                              (eph_manifest ephemeralKeys)) in
          let w := print w endl in
          match writeToFile keyFile (fs w) keys with
          | ((Throw e, fs'), _) => (Throw e, {| fs := fs'; cout := cout w |})
          | ((OK _, fs'), _) => (OK tt, {| fs := fs'; cout := cout w |})
          end
      end
  end.

(** [runCommand], lines 119-141. *)
Definition runCommand (args : list string) (keyFile : string) (seed : Seed)
    (w : World) : Result Z * World :=
  match args with
  | [] => (Throw NoCommandSpecified, w)
  | [command] =>
      let (r, w') :=
        if decide (command = "create_master_keys")
        then createKeyFile keyFile seed w
        else if decide (command = "create_signing_keys")
        then signManifest keyFile None seed w
        else if decide (command = "revoke_master_keys")
        then signManifest keyFile (Some UINT32_MAX) seed w
        else (Throw UnknownCommand, w) in
      (_ ← r; OK 0, w')
  | _ => (Throw WrongNumberOfParameters, w)
  end.

(** ** [main], main.cpp lines 143-235 *)

(** [getEnvVar], lines 143-155: the value of the variable, and the empty
    string when [getenv] finds none. *)
Definition getEnvVar (env : gmap string string) (name : string) : string :=
  match env !! name with
  | Some v => v
  | None => EmptyString
  end.

(** What [po::store] leaves in [vm] for the four options of lines 175-183:
    whether [--help] was given, and the values of [--keyfile], [--unittest]
    and [--parameters] (the positional arguments) when they were. *)
Record variables_map : Type := {
  vm_help : bool;
  vm_keyfile : option string;
  vm_unittest : option string;
  vm_parameters : option (list string)
}.

(** The outcome of lines 190-204: the parser threw, or filled [vm]. *)
Inductive CommandLine : Type :=
| IncorrectSyntax
| Parsed (vm : variables_map).

(** The process: the world the commands act on, and standard error. *)
Record Process : Type := {
  world : World;
  cerr : string
}.

Definition printError (p : Process) (text : string) : Process :=
  {| world := world p; cerr := cerr p +:+ text |}.

Definition EXIT_SUCCESS : Z := 0.
Definition EXIT_FAILURE : Z := 1.

(** [printHelp], lines 29-41; [desc] is the text of the options
    description. *)
Definition printHelp (desc : string) (p : Process) : Process :=
  printError p
    ("ripple_validator_keys" +:+ " [options] <command> <params>" +:+ endl
       +:+ desc +:+ endl
       +:+ "Commands: " +:+ endl
       +:+ "     create_master_keys" +:+ endl
       +:+ "     create_signing_keys" +:+ endl
       +:+ "     revoke_master_keys" +:+ endl).

(** [runUnitTests], lines 43-52; [run_each] is the run of the test suites
    by the reporter, which says whether any failed. *)
Definition runUnitTests (run_each : Process -> bool * Process) (p : Process)
  : Z * Process :=
  let (anyFailed, p') := run_each p in
  if anyFailed then (EXIT_FAILURE, p') else (EXIT_SUCCESS, p').

(** [main], lines 157-235, from the parsed command line on.  A command that
    throws is reported on standard error, and control then reaches the end
    of [main], which returns 0. *)
Definition main (cl : CommandLine) (desc : string) (env : gmap string string)
    (run_each : Process -> bool * Process) (seed : Seed) (p : Process)
  : Z * Process :=
  match cl with
  | IncorrectSyntax =>
      (1, printError
            (printError p
               ("manifest_tool: Incorrect command line syntax." +:+ endl))
            ("Use '--help' for a list of options." +:+ endl))
  | Parsed vm =>
      match vm_unittest vm with
      | Some _ => runUnitTests run_each p
      | None =>
          match vm_help vm, vm_parameters vm with
          | false, Some parameters =>
              let DEFAULT_KEY_FILE :=
                getEnvVar env "HOME" +:+ "/.ripple/validator-keys.json" in
              let keyFile :=
                match vm_keyfile vm with
                | Some keyfile => keyfile
                | None => DEFAULT_KEY_FILE
                end in
              match runCommand parameters keyFile seed (world p) with
              | (OK status, w) => (status, {| world := w; cerr := cerr p |})
              | (Throw e, w) =>
                  (0, printError {| world := w; cerr := cerr p |}
                        (what e +:+ endl))
              end
          | _, _ => (0, printHelp desc p)
          end
      end
  end.

(** ** Helper notions for the statements *)

(** The keys with another sequence, every other member as it was. *)
Definition withSequence (keys : ValidatorKeys) (sequence : Z) : ValidatorKeys :=
  (setSequence sequence keys).2.

(** The body of [make_ValidatorKeys] once the three fields are known to be
    there. *)
Definition validateFields (keyFile : string) (kv sv qv : Json.Value)
  : Result ValidatorKeys :=
  s ← liftJson (asString kv);
  if decide (keyTypeFromString s = invalid)
  then Throw (InvalidKeyType keyFile kv)
  else
    s' ← liftJson (asString sv);
    match parseBase58_NODE_PRIVATE s' with
    | None => Throw (InvalidSecret keyFile sv)
    | Some masterSecret =>
        if negb (Json.isIntegral qv)
        then Throw (InvalidSequence keyFile qv)
        else
          sequence ← liftJson (asUInt qv);
          OK {| keyType_ := keyTypeFromString s;
                masterSecret_ := masterSecret;
                validationPublicKey_ :=
                  derivePublicKey (keyTypeFromString s) masterSecret;
                sequence_ := sequence |}
    end.

(** The text of line 98 of main.cpp. *)
Definition revocationWarning : string :=
  "WARNING: This will revoke your master keys!" +:+ endl +:+ endl.

(** The text of lines 102-113 of main.cpp, for the keys as they are signed
    and the ephemeral keys made for them. *)
Definition signManifestReport (keys : ValidatorKeys) (ephemeralKeys : EphemeralKeys)
  : string :=
  ("Update rippled.cfg file with these values:" +:+ endl +:+ endl)
  +:+ ("[validation_seed]" +:+ endl
         +:+ toBase58_Seed (eph_seed ephemeralKeys) +:+ endl)
  +:+ ("# validation_public_key: "
         +:+ toBase58_NODE_PUBLIC (eph_validationPublicKey ephemeralKeys)
         +:+ endl)
  +:+ ("# sequence number: " +:+ pretty (sequence_ keys) +:+ endl +:+ endl)
  +:+ ("[validation_manifest]" +:+ endl)
  +:+ printWrapped (String.length (eph_manifest ephemeralKeys)) 72
        (eph_manifest ephemeralKeys)
  +:+ endl.

(** Lines printed one after the other, each followed by a line end. *)
Fixpoint printedLines (lines : list string) : string :=
  match lines with
  | [] => EmptyString
  | line :: more => line +:+ endl +:+ printedLines more
  end.

(** The lines put together again, without the line ends. *)
Fixpoint joinLines (lines : list string) : string :=
  match lines with
  | [] => EmptyString
  | line :: more => line +:+ joinLines more
  end.

(** The three commands [runCommand] knows, lines 131-136. *)
Definition isCommand (command : string) : bool :=
  bool_decide (command = "create_master_keys")
  || bool_decide (command = "create_signing_keys")
  || bool_decide (command = "revoke_master_keys").

(** The errors of loading a key file, ValidatorKeys.cpp lines 57-117 (a
    [Json::error] among them). *)
Definition isLoadError (e : Error) : bool :=
  match e with
  | FailedToOpen _ | ParseFailure _ | MissingField _ _ | InvalidKeyType _ _
  | InvalidSecret _ _ | InvalidSequence _ _ | JsonError _ => true
  | _ => false
  end.

(** The errors [runCommand] throws for its arguments, lines 122-138. *)
Definition isArgumentError (e : Error) : bool :=
  match e with
  | NoCommandSpecified | WrongNumberOfParameters | UnknownCommand => true
  | _ => false
  end.

(** What a step that ended in [r] may have done on its way from the world
    [w] to the world [w']: only the key file can have changed, directories
    and output are only added, and a throw leaves every file as it was, and
    the whole world unless the key file could not be written. *)
Definition commandEffect {A : Type} (keyFile : string) (w : World)
    (r : Result A) (w' : World) : Prop :=
  refusals (fs w') = refusals (fs w)
  /\ (forall path, path <> keyFile ->
        files (fs w') !! path = files (fs w) !! path)
  /\ directories (fs w) ⊆ directories (fs w')
  /\ (exists printed, cout w' = cout w +:+ printed)
  /\ (forall e, r = Throw e ->
        files (fs w') = files (fs w)
        /\ ((forall parent, e <> CannotCreateDirectory parent) ->
            e <> CannotOpenKeyFile keyFile -> w' = w)).

(** What [signManifest] prints on standard output, lines 97-113, for the
    keys at the sequence they are signed at. *)
Definition signManifestOutput (keys : ValidatorKeys) (seed : Seed) : string :=
  (if sequence_ keys =? UINT32_MAX then revocationWarning else EmptyString)
  +:+ signManifestReport keys (createEphemeralKeys secp256k1 seed keys).1.

(** ** What is assumed of the external capabilities *)

(** What is assumed of base58: a secret key is read back from its text. *)
Definition Base58RoundTrip : Prop :=
  forall sk : SecretKey,
    parseBase58_NODE_PRIVATE (toBase58_NODE_PRIVATE sk) = Some sk.

(** What is assumed of paths: the path above a path, when there is one, is
    shorter than the path. *)
Definition ParentPathShorter : Prop :=
  forall p : string,
    parent_path p <> EmptyString ->
    (String.length (parent_path p) < String.length p)%nat.

(** What is assumed of key generation: the public key of a generated pair
    is the one derived from its secret (the test's lines 123-125). *)
Definition GeneratedPairDerives : Prop :=
  forall (t : KeyType) (seed : Seed),
    (generateKeyPair t seed).1 = derivePublicKey t (generateKeyPair t seed).2.

(** The derivation invariant of a master identity. *)
Definition Derived (keys : ValidatorKeys) : Prop :=
  validationPublicKey_ keys = derivePublicKey (keyType_ keys) (masterSecret_ keys).

(** What is assumed of the signature scheme: a signature made with a
    secret key of a valid type verifies against the public key derived
    from it. *)
Definition SignatureVerifies : Prop :=
  forall (t : KeyType) (sk : SecretKey) (m : Blob),
    t <> invalid ->
    verify_Slice (derivePublicKey t sk) m (sign_Slice t sk m) = true.

(** What is assumed of the serializer and of base64: what was written is
    read back. *)
Definition SerializerRoundTrip : Prop :=
  forall fields : list (SField * STValue),
    SerialIter_getFields (Serializer_addFields fields) = Some fields.

Definition Base64RoundTrip : Prop :=
  forall b : Blob, base64_decode (base64_encode b) = b.

(** The bytes the master secret signs: the data of the second [sign], line
    169, whose object already holds the ephemeral signature. *)
Definition masterSigningData (this : ValidatorKeys) (ephKeyType : KeyType)
    (seed : Seed) : Blob :=
  signingData HashPrefix_manifest
    (sign (unsignedManifest this ephKeyType seed) HashPrefix_manifest
       ephKeyType (generateSecretKey ephKeyType seed) sfSignature).

(** The bytes the ephemeral secret signs: the data of the first [sign],
    line 167. *)
Definition ephemeralSigningData (this : ValidatorKeys) (ephKeyType : KeyType)
    (seed : Seed) : Blob :=
  signingData HashPrefix_manifest (unsignedManifest this ephKeyType seed).

(** The spec's words for the bytes the master secret signs: "record ∪
    {ephemeralSignature} laid out in canonical field order", that is the
    whole object as it stands before the second [sign]. *)
Definition spec_masterSigningData (this : ValidatorKeys) (ephKeyType : KeyType)
    (seed : Seed) : Blob :=
  (Serializer_add32 HashPrefix_manifest
   ++ STObject_add
        (sign (unsignedManifest this ephKeyType seed) HashPrefix_manifest
           ephKeyType (generateSecretKey ephKeyType seed) sfSignature))%list.

End Model.

(** ** A small instance of the capabilities

    It lets the model run on concrete inputs and shows that the laws the
    theorems assume can be met together.  A secret key is its own seed, a
    public key is the secret behind a byte for the key type, and a signature
    is the public key followed by the message. *)

Module Toy.

Definition keyTypeByte (t : KeyType) : byte :=
  match t with
  | invalid => xff
  | secp256k1 => x02
  | ed25519 => xed
  end.

Definition derive (t : KeyType) (sk : Blob) : Blob := keyTypeByte t :: sk.

Definition signBytes (t : KeyType) (sk : Blob) (m : Blob) : Blob :=
  (derive t sk ++ m)%list.

Definition verifyBytes (pk : Blob) (m : Blob) (sig : Blob) : bool :=
  bool_decide (sig = (pk ++ m)%list).

Definition toBase58 (tag : Ascii.ascii) (b : Blob) : string :=
  String tag (string_of_list_byte b).

Definition parseBase58 (tag : Ascii.ascii) (s : string) : option Blob :=
  match s with
  | String c rest => if decide (c = tag) then Some (list_byte_of_string rest) else None
  | EmptyString => None
  end.

(** Bytes are framed one by one: [x01] before each, [x00] at the end. *)
Fixpoint frame (b : Blob) : Blob :=
  match b with
  | [] => [x00]
  | x :: rest => x01 :: x :: frame rest
  end.

Fixpoint unframe (l : Blob) : option (Blob * Blob) :=
  match l with
  | [] => None
  | t :: rest =>
      if decide (t = x00) then Some ([], rest)
      else
        match rest with
        | [] => None
        | x :: rest' =>
            match unframe rest' with
            | Some (b, tail) => Some (x :: b, tail)
            | None => None
            end
        end
  end.

(** An integer as its binary digits, least significant first. *)
Fixpoint bytes_of_positive (p : positive) : Blob :=
  match p with
  | xH => []
  | xO q => x00 :: bytes_of_positive q
  | xI q => x01 :: bytes_of_positive q
  end.

Fixpoint positive_of_bytes (l : Blob) : positive :=
  match l with
  | [] => xH
  | t :: rest =>
      if decide (t = x00) then xO (positive_of_bytes rest)
      else xI (positive_of_bytes rest)
  end.

Definition bytes_of_Z (z : Z) : Blob :=
  match z with
  | Z0 => []
  | Zpos p => x01 :: bytes_of_positive p
  | Zneg p => x02 :: bytes_of_positive p
  end.

Definition Z_of_bytes (l : Blob) : Z :=
  match l with
  | [] => Z0
  | t :: rest =>
      if decide (t = x01) then Zpos (positive_of_bytes rest)
      else Zneg (positive_of_bytes rest)
  end.

Definition fieldByte (f : SField) : byte :=
  match f with
  | sfSequence => x24
  | sfPublicKey => x71
  | sfSigningPubKey => x73
  | sfSignature => x76
  | sfMasterSignature => x70
  end.

Definition fieldOfByte (t : byte) : option SField :=
  if decide (t = x24) then Some sfSequence
  else if decide (t = x71) then Some sfPublicKey
  else if decide (t = x73) then Some sfSigningPubKey
  else if decide (t = x76) then Some sfSignature
  else if decide (t = x70) then Some sfMasterSignature
  else None.

Definition addField (x : SField * STValue) : Blob :=
  match x.2 with
  | STUInt32 v => fieldByte x.1 :: x00 :: frame (bytes_of_Z v)
  | STBlob b => fieldByte x.1 :: x01 :: frame b
  end.

Definition addFields (l : list (SField * STValue)) : Blob :=
  concat (map addField l).

Fixpoint getFields_fuel (n : nat) (l : Blob) : option (list (SField * STValue)) :=
  match n with
  | O => None
  | S n' =>
      match l with
      | [] => Some []
      | t :: k :: rest =>
          match fieldOfByte t, unframe rest with
          | Some f, Some (b, tail) =>
              let v := if decide (k = x00) then STUInt32 (Z_of_bytes b) else STBlob b in
              match getFields_fuel n' tail with
              | Some fields => Some ((f, v) :: fields)
              | None => None
              end
          | _, _ => None
          end
      | _ => None
      end
  end.

Definition getFields (l : Blob) : option (list (SField * STValue)) :=
  getFields_fuel (S (length l)) l.

(** Whether a path has a separator. *)
Fixpoint hasSeparator (p : string) : bool :=
  match p with
  | EmptyString => false
  | String c rest => bool_decide (c = "/"%char) || hasSeparator rest
  end.

(** The path up to its last separator. *)
Fixpoint dropLastElement (p : string) : string :=
  match p with
  | EmptyString => EmptyString
  | String c rest =>
      if hasSeparator rest then String c (dropLastElement rest) else EmptyString
  end.

Definition lib : RippleLib := {|
  Seed := Blob;
  SecretKey := Blob;
  generateKeyPair := fun t seed => (derive t seed, seed);
  generateSecretKey := fun _ seed => seed;
  derivePublicKey := derive;
  sign_Slice := signBytes;
  verify_Slice := verifyBytes;
  toBase58_NODE_PRIVATE := toBase58 "p"%char;
  parseBase58_NODE_PRIVATE := parseBase58 "p"%char;
  toBase58_NODE_PUBLIC := toBase58 "n"%char;
  toBase58_Seed := toBase58 "s"%char;
  Serializer_add32 := fun _ => [x4d; x41; x4e; x00];
  Serializer_addFields := addFields;
  SerialIter_getFields := getFields;
  base64_encode := string_of_list_byte;
  base64_decode := list_byte_of_string;
  toStyledString := fun _ => EmptyString;
  to_string_double := fun _ => "0.000000";
  lexicalCast_UInt := fun _ => None;
  parent_path := dropLastElement
|}.

(** A seed for an ephemeral key. *)
Definition ephSeed : @Seed lib := [x01; x02].

(** A master identity at a given sequence. *)
Definition keysAt (sequence : Z) : ValidatorKeys (L := lib) :=
  @Build_ValidatorKeys lib ed25519 [x0a; x0b] (derive ed25519 [x0a; x0b]) sequence.

End Toy.

(** ** The key files of the test ([testMakeValidatorKeys], lines 166-205) *)

Module TestFiles.

Definition keyFile : string := "test_key_file/validator_keys.json".

(** The secret of [Toy.keysAt], as text. *)
Definition secretText : string := toBase58_NODE_PRIVATE (RippleLib := Toy.lib) [x0a; x0b].

Definition jv0 : JsonObject := {["dummy" := Json.stringValue "field"]}.
Definition jv1 : JsonObject := <["key_type" := Json.stringValue "dummy keytype"]> jv0.
Definition jv2 : JsonObject := <["master_secret" := Json.stringValue "dummy secret"]> jv1.
Definition jv3 : JsonObject := <["sequence" := Json.stringValue "dummy sequence"]> jv2.
Definition jv4 : JsonObject := <["key_type" := Json.stringValue (to_string ed25519)]> jv3.
Definition jv5 : JsonObject := <["master_secret" := Json.stringValue secretText]> jv4.
Definition jv6 : JsonObject := <["sequence" := Json.uintValue 4294967295]> jv5.

(** A record with a negative sequence, and one that also carries a public
    key that is not the master key's. *)
Definition negativeSequence : JsonObject := <["sequence" := Json.intValue (-1)]> jv5.
Definition foreignPublicKey : JsonObject :=
  <["validation_public_key" := Json.stringValue "nHUtNnLVx7odrz5dnfb2xp1gbEeJPbzJWfdicSkGyVw1eE5GpjQr"]> jv6.

Definition load (jKeys : JsonObject) : Result (ValidatorKeys (L := Toy.lib)) :=
  make_ValidatorKeys_json (L := Toy.lib) keyFile jKeys.

(** The world in which the key file holds a given document. *)
Definition worldWith (jKeys : JsonObject) : World :=
  {| fs := {| files := {[keyFile := JsonDocument jKeys]};
              directories := ∅;
              refusals := ∅ |};
     cout := EmptyString |}.

(** The world before any key file is made. *)
Definition emptyWorld : World :=
  {| fs := {| files := ∅; directories := ∅; refusals := ∅ |};
     cout := EmptyString |}.

Definition run (command : string) (w : World) : Result Z * World :=
  runCommand (L := Toy.lib) [command] keyFile Toy.ephSeed w.

(** The world in which the key file holds a given document and does not
    open for writing. *)
Definition readOnlyWorld (jKeys : JsonObject) : World :=
  {| fs := {| files := {[keyFile := JsonDocument jKeys]};
              directories := ∅;
              refusals := {[keyFile := OpenRefused]} |};
     cout := EmptyString |}.

(** The world in which the key file holds a given document, and a write
    to it is lost after the file is emptied. *)
Definition fullDiskWorld (jKeys : JsonObject) : World :=
  {| fs := {| files := {[keyFile := JsonDocument jKeys]};
              directories := ∅;
              refusals := {[keyFile := WriteLost NotJson]} |};
     cout := EmptyString |}.

(** The world before any key file is made, in which the key file will not
    open for writing. *)
Definition unwritableWorld : World :=
  {| fs := {| files := ∅;
              directories := ∅;
              refusals := {[keyFile := OpenRefused]} |};
     cout := EmptyString |}.

(** The command line [--keyfile <keyFile> <command>]. *)
Definition commandLine (command : string) : variables_map :=
  {| vm_help := false;
     vm_keyfile := Some keyFile;
     vm_unittest := None;
     vm_parameters := Some [command] |}.

(** A process at its start, in a given world. *)
Definition processIn (w : World) : Process :=
  {| world := w; cerr := EmptyString |}.

(** Unit tests none of which fails. *)
Definition passingTests (p : Process) : bool * Process := (false, p).

(** What the key file holds, as keys. *)
Definition keysIn (w : World) : Result (ValidatorKeys (L := Toy.lib)) :=
  make_ValidatorKeys (L := Toy.lib) keyFile (fs w).

End TestFiles.

(** * Properties *)

(** ** The sequence counter *)

Section SequenceCounter.
Context `{L : RippleLib}.

Lemma advanceSequence_Some (requested : Z) (keys : ValidatorKeys) :
  advanceSequence (Some requested) keys =
    if requested <=? sequence_ keys
    then (Throw (SequenceNotIncreasing (sequence_ keys)), keys)
    else (OK tt, (setSequence requested keys).2).
Proof.
  unfold advanceSequence, bind, sequence, ret. simpl.
  destruct (requested <=? sequence_ keys); reflexivity.
Qed.

Lemma advanceSequence_None (keys : ValidatorKeys) :
  advanceSequence None keys =
    if sequence_ keys =? UINT32_MAX
    then (Throw SequenceExhausted, keys)
    else (OK tt, (setSequence (wrap32 (sequence_ keys + 1)) keys).2).
Proof.
  unfold advanceSequence, bind, sequence, ret. simpl.
  destruct (sequence_ keys =? UINT32_MAX); reflexivity.
Qed.

Lemma withSequence_members (keys : ValidatorKeys) (s : Z) :
  keyType_ (withSequence keys s) = keyType_ keys
  /\ masterSecret_ (withSequence keys s) = masterSecret_ keys
  /\ validationPublicKey_ (withSequence keys s) = validationPublicKey_ keys
  /\ sequence_ (withSequence keys s) = s.
Proof. repeat split. Qed.

End SequenceCounter.

(** ** The key file *)

Section KeyFile.
Context `{L : RippleLib}.

Lemma isMember_Some (jKeys : JsonObject) (field : string) (v : Json.Value) :
  jKeys !! field = Some v -> isMember jKeys field = true.
Proof. intros H. unfold isMember. rewrite H. apply bool_decide_eq_true. eauto. Qed.

Lemma isMember_None (jKeys : JsonObject) (field : string) :
  jKeys !! field = None -> isMember jKeys field = false.
Proof.
  intros H. unfold isMember. rewrite H. apply bool_decide_eq_false.
  intros [v Hv]. discriminate.
Qed.

Lemma member_Some (jKeys : JsonObject) (field : string) (v : Json.Value) :
  jKeys !! field = Some v -> member jKeys field = v.
Proof. intros H. unfold member. rewrite H. reflexivity. Qed.

Lemma make_ValidatorKeys_json_present (keyFile : string) (jKeys : JsonObject)
    (kv sv qv : Json.Value) :
  jKeys !! "key_type" = Some kv ->
  jKeys !! "master_secret" = Some sv ->
  jKeys !! "sequence" = Some qv ->
  make_ValidatorKeys_json keyFile jKeys = validateFields keyFile kv sv qv.
Proof.
  intros Hk Hs Hq. unfold make_ValidatorKeys_json, validateFields.
  unfold requiredFields, requireFields.
  rewrite (isMember_Some _ _ _ Hk), (isMember_Some _ _ _ Hs), (isMember_Some _ _ _ Hq).
  rewrite (member_Some _ _ _ Hk), (member_Some _ _ _ Hs), (member_Some _ _ _ Hq).
  reflexivity.
Qed.

(** A document that loads has the three fields. *)
Lemma make_ValidatorKeys_json_OK_present (keyFile : string) (jKeys : JsonObject)
    (keys : ValidatorKeys) :
  make_ValidatorKeys_json keyFile jKeys = OK keys ->
  exists kv sv qv,
    jKeys !! "key_type" = Some kv
    /\ jKeys !! "master_secret" = Some sv
    /\ jKeys !! "sequence" = Some qv
    /\ validateFields keyFile kv sv qv = OK keys.
Proof.
  intros H.
  destruct (jKeys !! "key_type") as [kv |] eqn:Hk.
  2:{ unfold make_ValidatorKeys_json, requiredFields, requireFields in H.
      rewrite (isMember_None _ _ Hk) in H. discriminate. }
  destruct (jKeys !! "master_secret") as [sv |] eqn:Hs.
  2:{ unfold make_ValidatorKeys_json, requiredFields, requireFields in H.
      rewrite (isMember_Some _ _ _ Hk), (isMember_None _ _ Hs) in H. discriminate. }
  destruct (jKeys !! "sequence") as [qv |] eqn:Hq.
  2:{ unfold make_ValidatorKeys_json, requiredFields, requireFields in H.
      rewrite (isMember_Some _ _ _ Hk), (isMember_Some _ _ _ Hs),
        (isMember_None _ _ Hq) in H. discriminate. }
  exists kv, sv, qv. repeat split; try reflexivity.
  rewrite <- H. symmetry. apply make_ValidatorKeys_json_present; assumption.
Qed.

(** What [validateFields] returns when it returns. *)
Lemma validateFields_OK (keyFile : string) (kv sv qv : Json.Value)
    (keys : ValidatorKeys) :
  validateFields keyFile kv sv qv = OK keys ->
  exists s s',
    asString kv = Json.Converted s
    /\ keyType_ keys = keyTypeFromString s
    /\ keyType_ keys <> invalid
    /\ asString sv = Json.Converted s'
    /\ parseBase58_NODE_PRIVATE s' = Some (masterSecret_ keys)
    /\ validationPublicKey_ keys
       = derivePublicKey (keyType_ keys) (masterSecret_ keys)
    /\ Json.isIntegral qv = true
    /\ asUInt qv = Json.Converted (sequence_ keys).
Proof.
  unfold validateFields. intros H.
  destruct (asString kv) as [s | m] eqn:Hk; [| discriminate]. simpl in H.
  destruct (decide (keyTypeFromString s = invalid)) as [| Hvalid]; [discriminate |].
  destruct (asString sv) as [s' | m] eqn:Hs; [| discriminate]. simpl in H.
  destruct (parseBase58_NODE_PRIVATE s') as [sk |] eqn:Hp; [| discriminate].
  destruct (Json.isIntegral qv) eqn:Hi; [| discriminate]. simpl in H.
  destruct (asUInt qv) as [n | m] eqn:Hq; [| discriminate]. simpl in H.
  injection H as <-. exists s, s'. simpl. repeat split; auto.
Qed.

Lemma requiredFields_inv (field : string) :
  field ∈ requiredFields ->
  field = "key_type" \/ field = "master_secret" \/ field = "sequence".
Proof.
  unfold requiredFields. rewrite !elem_of_cons, elem_of_nil. tauto.
Qed.

Lemma keyTypeFromString_to_string (t : KeyType) :
  t <> invalid -> keyTypeFromString (to_string t) = t.
Proof. destruct t; [contradiction | reflexivity | reflexivity]. Qed.

(** Loading reads the three required fields and nothing else. *)
Lemma make_ValidatorKeys_json_ext (keyFile : string) (jKeys jKeys' : JsonObject) :
  (forall field, field ∈ requiredFields -> jKeys' !! field = jKeys !! field) ->
  make_ValidatorKeys_json keyFile jKeys' = make_ValidatorKeys_json keyFile jKeys.
Proof.
  intros Hext.
  assert (Hk : jKeys' !! "key_type" = jKeys !! "key_type")
    by (apply Hext; unfold requiredFields; rewrite !elem_of_cons; tauto).
  assert (Hs : jKeys' !! "master_secret" = jKeys !! "master_secret")
    by (apply Hext; unfold requiredFields; rewrite !elem_of_cons; tauto).
  assert (Hq : jKeys' !! "sequence" = jKeys !! "sequence")
    by (apply Hext; unfold requiredFields; rewrite !elem_of_cons; tauto).
  unfold make_ValidatorKeys_json, requiredFields, requireFields, isMember, member.
  rewrite Hk, Hs, Hq. reflexivity.
Qed.

(** C6.  A record that loads gives keys whose public key is the one derived
    from the decoded secret, and the record's [validation_public_key] takes
    no part: whatever it holds, and whether it is there or not, the same
    keys are loaded. *)
Theorem loaded_public_key_is_derived (keyFile : string) (jKeys : JsonObject)
    (keys : ValidatorKeys) :
  make_ValidatorKeys_json keyFile jKeys = OK keys ->
  Derived keys
  /\ (exists s, asString (member jKeys "master_secret") = Json.Converted s
               /\ parseBase58_NODE_PRIVATE s = Some (masterSecret_ keys))
  /\ (forall v : Json.Value,
        make_ValidatorKeys_json keyFile (<["validation_public_key" := v]> jKeys)
        = OK keys)
  /\ make_ValidatorKeys_json keyFile (delete "validation_public_key" jKeys)
     = OK keys.
Proof.
  intros Hload.
  destruct (make_ValidatorKeys_json_OK_present _ _ _ Hload)
    as (kv & sv & qv & Hk & Hs & Hq & Hv).
  destruct (validateFields_OK _ _ _ _ _ Hv)
    as (s & s' & _ & _ & _ & Hs' & Hp & Hd & _ & _).
  split; [exact Hd |].
  split; [exists s'; rewrite (member_Some _ _ _ Hs); auto |].
  split.
  - intros v. rewrite <- Hload. apply make_ValidatorKeys_json_ext.
    intros field Hin. apply lookup_insert_ne.
    destruct (requiredFields_inv _ Hin) as [-> | [-> | ->]]; discriminate.
  - rewrite <- Hload. apply make_ValidatorKeys_json_ext.
    intros field Hin. apply lookup_delete_ne.
    destruct (requiredFields_inv _ Hin) as [-> | [-> | ->]]; discriminate.
Qed.

(** The document [writeToFile] writes. *)
Lemma writeToFile_json_eq (keys : ValidatorKeys) :
  writeToFile_json keys =
    (<["sequence" := Json.uintValue (sequence_ keys)]>
     (<["key_type" := Json.stringValue (to_string (keyType_ keys))]>
      (<["validation_public_key" :=
           Json.stringValue (toBase58_NODE_PUBLIC (validationPublicKey_ keys))]>
       (<["master_secret" :=
            Json.stringValue (toBase58_NODE_PRIVATE (masterSecret_ keys))]> ∅))),
     keys).
Proof. reflexivity. Qed.

(** Loading does not depend on the type the reader gives the sequence. *)
Lemma validateFields_readInteger (keyFile : string) (kv sv : Json.Value) (n : Z) :
  0 <= n ->
  validateFields keyFile kv sv (readInteger n)
  = validateFields keyFile kv sv (Json.uintValue n).
Proof.
  intros Hn. unfold validateFields, readInteger.
  destruct (n <? 2 ^ 31); [| reflexivity]. simpl.
  destruct (Z.leb_spec 0 n); [reflexivity | lia].
Qed.

(** The record written for a master identity loads again and gives the
    identity back. *)
Lemma make_ValidatorKeys_json_writeToFile_json (keyFile : string)
    (keys : ValidatorKeys) :
  Base58RoundTrip -> keyType_ keys <> invalid -> Derived keys ->
  make_ValidatorKeys_json keyFile (writeToFile_json keys).1 = OK keys.
Proof.
  intros Hb58 Hvalid Hderived.
  rewrite writeToFile_json_eq. simpl.
  erewrite make_ValidatorKeys_json_present.
  2:{ rewrite lookup_insert_ne by done. apply lookup_insert_eq. }
  2:{ do 3 (rewrite lookup_insert_ne by done). apply lookup_insert_eq. }
  2:{ apply lookup_insert_eq. }
  unfold validateFields. simpl.
  rewrite (keyTypeFromString_to_string _ Hvalid).
  destruct (decide (keyType_ keys = invalid)) as [| _]; [contradiction |].
  rewrite Hb58. simpl.
  destruct keys as [kt ms pk sq]. unfold Derived in Hderived. simpl in *.
  rewrite <- Hderived. reflexivity.
Qed.

(** The sequence of keys that were loaded is a [std::uint32_t], when the
    [sequence] field holds an integer of its type's range. *)
Lemma validateFields_sequence_uint32 (keyFile : string) (kv sv qv : Json.Value)
    (keys : ValidatorKeys) :
  integerInRange qv ->
  validateFields keyFile kv sv qv = OK keys ->
  is_uint32 (sequence_ keys).
Proof.
  intros Hrange Hv.
  destruct (validateFields_OK _ _ _ _ _ Hv)
    as (s & s' & _ & _ & _ & _ & _ & _ & Hint & Hq).
  unfold is_uint32, UINT32_MAX.
  destruct qv as [| i | u | r | t | b | a | o]; simpl in *; try discriminate.
  - destruct (Z.leb_spec 0 i); [| discriminate].
    injection Hq as <-. lia.
  - injection Hq as <-. lia.
  - injection Hq as <-. destruct b; lia.
Qed.

(** Keys that were loaded have a valid key type and a derived public key. *)
Lemma make_ValidatorKeys_json_valid (keyFile : string) (jKeys : JsonObject)
    (keys : ValidatorKeys) :
  make_ValidatorKeys_json keyFile jKeys = OK keys ->
  keyType_ keys <> invalid /\ Derived keys.
Proof.
  intros Hload.
  destruct (make_ValidatorKeys_json_OK_present _ _ _ Hload)
    as (kv & sv & qv & _ & _ & _ & Hv).
  destruct (validateFields_OK _ _ _ _ _ Hv)
    as (s & s' & _ & _ & Hvalid & _ & _ & Hd & _ & _).
  split; assumption.
Qed.

Lemma make_ValidatorKeys_valid (keyFile : string) (fs : FileSystem)
    (keys : ValidatorKeys) :
  make_ValidatorKeys keyFile fs = OK keys ->
  keyType_ keys <> invalid /\ Derived keys.
Proof.
  unfold make_ValidatorKeys. intros Hload.
  destruct (files fs !! keyFile) as [[jKeys |] |]; try discriminate.
  apply (make_ValidatorKeys_json_valid _ _ _ Hload).
Qed.

(** A key file that loads is a file. *)
Lemma make_ValidatorKeys_is_file (keyFile : string) (fs : FileSystem)
    (keys : ValidatorKeys) :
  make_ValidatorKeys keyFile fs = OK keys -> is_Some (files fs !! keyFile).
Proof.
  unfold make_ValidatorKeys.
  destruct (files fs !! keyFile); [eauto | discriminate].
Qed.

(** The errors of loading. *)
Lemma make_ValidatorKeys_throws_load_error (keyFile : string) (fs : FileSystem)
    (e : Error) :
  make_ValidatorKeys keyFile fs = Throw e -> isLoadError e = true.
Proof.
  unfold make_ValidatorKeys.
  destruct (files fs !! keyFile) as [[jKeys |] |];
    [| intros [= <-]; reflexivity | intros [= <-]; reflexivity].
  unfold make_ValidatorKeys_json, requiredFields, requireFields.
  destruct (isMember jKeys "key_type"); [| intros [= <-]; reflexivity].
  destruct (isMember jKeys "master_secret"); [| intros [= <-]; reflexivity].
  destruct (isMember jKeys "sequence"); [| intros [= <-]; reflexivity].
  cbn [negb].
  destruct (asString (member jKeys "key_type")) as [s | m];
    [| intros [= <-]; reflexivity].
  cbn.
  destruct (decide (keyTypeFromString s = invalid));
    [intros [= <-]; reflexivity |].
  destruct (asString (member jKeys "master_secret")) as [s' | m];
    [| intros [= <-]; reflexivity].
  cbn.
  destruct (parseBase58_NODE_PRIVATE s'); [| intros [= <-]; reflexivity].
  destruct (Json.isIntegral (member jKeys "sequence"));
    [| intros [= <-]; reflexivity].
  cbn.
  destruct (asUInt (member jKeys "sequence")) as [q | m];
    [discriminate | intros [= <-]; reflexivity].
Qed.

(** *** The file system under [writeToFile] *)

Lemma store_store (fs : FileSystem) (p : string) (c c' : FileContent) :
  store (store fs p c) p c' = store fs p c'.
Proof. unfold store. cbn [files directories refusals]. rewrite insert_insert_eq. reflexivity. Qed.

(** The directory of a file is there. *)
Lemma holdsFile_parent (fs : FileSystem) (p : string) :
  is_Some (files fs !! p) -> holdsFile fs (parent_path p) = true.
Proof.
  intros [c Hc]. unfold holdsFile. apply bool_decide_eq_true.
  apply Exists_exists. exists (p, c).
  split; [apply elem_of_map_to_list; exact Hc | reflexivity].
Qed.

Lemma is_regular_file_Some (fs : FileSystem) (p : string) :
  is_Some (files fs !! p) -> is_regular_file fs p = true.
Proof. intros H. unfold is_regular_file. apply bool_decide_eq_true. exact H. Qed.

(** Lines 135-144 change no file; they can only add directories. *)
Lemma makeParentDirectory_effect (keyFile : string) (fs fs' : FileSystem)
    (r : Result unit) :
  makeParentDirectory keyFile fs = (r, fs') ->
  files fs' = files fs
  /\ refusals fs' = refusals fs
  /\ directories fs ⊆ directories fs'
  /\ (forall e, r = Throw e -> e = CannotCreateDirectory (parent_path keyFile)).
Proof.
  unfold makeParentDirectory.
  destruct (decide (parent_path keyFile = EmptyString)) as [_ | _].
  { intros [= <- <-]. repeat split; [reflexivity | discriminate]. }
  destruct (negb (exists_ fs (parent_path keyFile))).
  - unfold create_directories.
    assert (Hmade : forall (ec : bool) (made : list string),
      (if ec || negb (is_directory (mkdirs fs made) (parent_path keyFile))
       then (Throw (CannotCreateDirectory (parent_path keyFile)), mkdirs fs made)
       else (OK tt, mkdirs fs made)) = (r, fs') ->
      files fs' = files fs /\ refusals fs' = refusals fs
      /\ directories fs ⊆ directories fs'
      /\ (forall e, r = Throw e -> e = CannotCreateDirectory (parent_path keyFile))).
    { intros ec made H.
      destruct (ec || negb (is_directory (mkdirs fs made) (parent_path keyFile)));
        injection H as <- <-; (split; [reflexivity |]; split; [reflexivity |];
          split; [apply union_subseteq_l |]); [intros e [= <-]; reflexivity
                                               | discriminate]. }
    destruct (refusals fs !! parent_path keyFile) as [[made | | remains] |];
      apply Hmade.
  - cbn [orb].
    destruct (negb (is_directory fs (parent_path keyFile)));
      intros [= <- <-]; repeat split; try reflexivity;
      [intros e [= <-]; reflexivity | discriminate].
Qed.

(** The directory of a file that is there needs no making. *)
Lemma makeParentDirectory_of_file (keyFile : string) (fs : FileSystem) :
  is_Some (files fs !! keyFile) -> makeParentDirectory keyFile fs = (OK tt, fs).
Proof.
  intros Hfile. unfold makeParentDirectory.
  destruct (decide (parent_path keyFile = EmptyString)) as [_ | _];
    [reflexivity |].
  unfold exists_, is_directory. rewrite (holdsFile_parent _ _ Hfile).
  rewrite !orb_true_r. cbn [negb]. cbv iota beta.
  rewrite (holdsFile_parent _ _ Hfile). rewrite !orb_true_r. reflexivity.
Qed.

(** What [writeToFile] leaves: the keys as they were, the file system with
    what it refuses unchanged and no directory less; on a throw every file
    as it was, on a return the key file holding what was streamed. *)
Lemma writeToFile_effect (keyFile : string) (fs fs' : FileSystem)
    (keys keys' : ValidatorKeys) (r : Result unit) :
  writeToFile keyFile fs keys = ((r, fs'), keys') ->
  keys' = keys
  /\ refusals fs' = refusals fs
  /\ directories fs ⊆ directories fs'
  /\ match r with
     | Throw e =>
         files fs' = files fs
         /\ (e = CannotCreateDirectory (parent_path keyFile)
             \/ e = CannotOpenKeyFile keyFile)
     | OK _ =>
         files fs' = <[keyFile := streamed keyFile (writeToFile_json keys).1 fs]>
                       (files fs)
     end.
Proof.
  unfold writeToFile, bind, ret. rewrite writeToFile_json_eq. cbn [fst snd].
  destruct (makeParentDirectory keyFile fs) as [r1 fs1] eqn:Hdir.
  destruct (makeParentDirectory_effect _ _ _ _ Hdir)
    as (Hfiles & Hrefusals & Hdirs & Hthrow).
  destruct r1 as [[] | e1].
  2:{ intros [= <- <- <-]. repeat split; try assumption.
      left. apply Hthrow. reflexivity. }
  unfold ofstream_open.
  destruct (negb (is_regular_file fs1 keyFile) && is_directory fs1 keyFile).
  { intros [= <- <- <-]. repeat split; try assumption. right. reflexivity. }
  assert (Hstreamed : forall jv c,
    streamed keyFile jv (store fs1 keyFile c) = streamed keyFile jv fs).
  { intros jv c. unfold streamed. cbn [refusals store]. rewrite Hrefusals.
    reflexivity. }
  destruct (refusals fs1 !! keyFile) as [[made | | remains] |] eqn:Hrefused.
  2:{ intros [= <- <- <-]. repeat split; try assumption. right. reflexivity. }
  all: intros [= <- <- <-]; unfold ofstream_write;
    rewrite store_store, Hstreamed;
    (split; [reflexivity |]); (split; [exact Hrefusals |]);
    (split; [exact Hdirs |]); cbn [files store]; rewrite Hfiles;
    reflexivity.
Qed.

(** [writeToFile] on a key file that is there: nothing is made, the file
    opens unless the file system refuses, and holds what was streamed. *)
Lemma writeToFile_existing (keyFile : string) (fs : FileSystem)
    (keys : ValidatorKeys) :
  is_Some (files fs !! keyFile) ->
  writeToFile keyFile fs keys =
    (match refusals fs !! keyFile with
     | Some OpenRefused => (Throw (CannotOpenKeyFile keyFile), fs)
     | _ => (OK tt, store fs keyFile (streamed keyFile (writeToFile_json keys).1 fs))
     end, keys).
Proof.
  intros Hfile. unfold writeToFile, bind, ret.
  rewrite writeToFile_json_eq. cbn [fst snd].
  rewrite (makeParentDirectory_of_file _ _ Hfile).
  unfold ofstream_open. rewrite (is_regular_file_Some _ _ Hfile). cbn [negb andb].
  unfold ofstream_write.
  destruct (refusals fs !! keyFile) as [[made | | remains] |] eqn:Hrefused;
    try reflexivity;
    rewrite store_store; unfold streamed; cbn [refusals store];
    rewrite Hrefused; reflexivity.
Qed.

(** C7.  The record written for a master identity loads again, and gives
    the identity back: equal under [operator==], that is in sequence, key
    type and public key (and in the secret too).  It does so through the
    key file, when [writeToFile] returns and the text has reached the file,
    and whichever integer type the reader gives the sequence. *)
Theorem save_load_round_trip (keyFile : string) (keys : ValidatorKeys) :
  Base58RoundTrip ->
  keyType_ keys <> invalid ->
  Derived keys ->
  make_ValidatorKeys_json keyFile (writeToFile_json keys).1 = OK keys
  /\ (exists keys2,
        make_ValidatorKeys_json keyFile (writeToFile_json keys).1 = OK keys2
        /\ ValidatorKeys_eqb keys keys2 = true
        /\ keyType_ keys2 = keyType_ keys
        /\ sequence_ keys2 = sequence_ keys
        /\ validationPublicKey_ keys2 = validationPublicKey_ keys)
  /\ (forall fs fs',
        (forall remains, refusals fs !! keyFile <> Some (WriteLost remains)) ->
        (writeToFile keyFile fs keys).1 = (OK tt, fs') ->
        make_ValidatorKeys keyFile fs' = OK keys)
  /\ (0 <= sequence_ keys ->
      make_ValidatorKeys_json keyFile
        (<["sequence" := readInteger (sequence_ keys)]> (writeToFile_json keys).1)
      = OK keys).
Proof.
  intros Hb58 Hvalid Hderived.
  pose proof (make_ValidatorKeys_json_writeToFile_json keyFile keys
                Hb58 Hvalid Hderived) as Hload.
  split; [exact Hload |]. split; [| split].
  - exists keys. split; [exact Hload |].
    unfold ValidatorKeys_eqb. rewrite !bool_decide_eq_true_2 by reflexivity.
    repeat split.
  - intros fs0 fs' Hreached Hw.
    destruct (writeToFile_effect keyFile fs0 fs' keys
                (writeToFile keyFile fs0 keys).2 (OK tt))
      as (_ & _ & _ & Hfiles).
    { rewrite <- Hw. apply surjective_pairing. }
    unfold make_ValidatorKeys. rewrite Hfiles, lookup_insert_eq.
    unfold streamed.
    destruct (refusals fs0 !! keyFile) as [[made | | remains] |] eqn:Hrefused;
      try exact Hload.
    destruct (Hreached remains). reflexivity.
  - intros Hseq. rewrite <- Hload. rewrite writeToFile_json_eq. simpl.
    erewrite (make_ValidatorKeys_json_present keyFile (<["sequence" := _]> _)).
    2:{ do 2 (rewrite lookup_insert_ne by done). apply lookup_insert_eq. }
    2:{ do 4 (rewrite lookup_insert_ne by done). apply lookup_insert_eq. }
    2:{ apply lookup_insert_eq. }
    erewrite (make_ValidatorKeys_json_present keyFile (<["sequence" := _]> _)).
    2:{ rewrite lookup_insert_ne by done. apply lookup_insert_eq. }
    2:{ do 3 (rewrite lookup_insert_ne by done). apply lookup_insert_eq. }
    2:{ apply lookup_insert_eq. }
    apply validateFields_readInteger. exact Hseq.
Qed.

(** C8, as amended.  [make_ValidatorKeys] reports the first failure in this
    order: (1) a required key is missing, [key_type] before [master_secret]
    before [sequence]; (2) the text of [key_type] is not the tag of a key
    type; (3) the text of [master_secret] does not decode as a secret;
    (4) [sequence] is not of an integral JSON type.  A record with both an
    invalid key type and an invalid secret reports the key type. *)
Theorem load_reports_first_failure (keyFile : string) (jKeys : JsonObject) :
  (jKeys !! "key_type" = None ->
   make_ValidatorKeys_json keyFile jKeys = Throw (MissingField keyFile "key_type"))
  /\ (is_Some (jKeys !! "key_type") -> jKeys !! "master_secret" = None ->
      make_ValidatorKeys_json keyFile jKeys
      = Throw (MissingField keyFile "master_secret"))
  /\ (is_Some (jKeys !! "key_type") -> is_Some (jKeys !! "master_secret") ->
      jKeys !! "sequence" = None ->
      make_ValidatorKeys_json keyFile jKeys
      = Throw (MissingField keyFile "sequence"))
  /\ (forall kv sv qv s,
        jKeys !! "key_type" = Some kv -> jKeys !! "master_secret" = Some sv ->
        jKeys !! "sequence" = Some qv ->
        asString kv = Json.Converted s -> keyTypeFromString s = invalid ->
        make_ValidatorKeys_json keyFile jKeys = Throw (InvalidKeyType keyFile kv))
  /\ (forall kv sv qv s s',
        jKeys !! "key_type" = Some kv -> jKeys !! "master_secret" = Some sv ->
        jKeys !! "sequence" = Some qv ->
        asString kv = Json.Converted s -> keyTypeFromString s <> invalid ->
        asString sv = Json.Converted s' -> parseBase58_NODE_PRIVATE s' = None ->
        make_ValidatorKeys_json keyFile jKeys = Throw (InvalidSecret keyFile sv))
  /\ (forall kv sv qv s s' sk,
        jKeys !! "key_type" = Some kv -> jKeys !! "master_secret" = Some sv ->
        jKeys !! "sequence" = Some qv ->
        asString kv = Json.Converted s -> keyTypeFromString s <> invalid ->
        asString sv = Json.Converted s' ->
        parseBase58_NODE_PRIVATE s' = Some sk ->
        Json.isIntegral qv = false ->
        make_ValidatorKeys_json keyFile jKeys = Throw (InvalidSequence keyFile qv))
  /\ (forall kv sv qv s s',
        jKeys !! "key_type" = Some kv -> jKeys !! "master_secret" = Some sv ->
        jKeys !! "sequence" = Some qv ->
        asString kv = Json.Converted s -> keyTypeFromString s = invalid ->
        asString sv = Json.Converted s' -> parseBase58_NODE_PRIVATE s' = None ->
        throwsInvalidKeyType (make_ValidatorKeys_json keyFile jKeys) = true).
Proof.
  split; [| split; [| split; [| split; [| split; [| split]]]]].
  - intros Hk. unfold make_ValidatorKeys_json, requiredFields, requireFields.
    rewrite (isMember_None _ _ Hk). reflexivity.
  - intros [kv Hk] Hs.
    unfold make_ValidatorKeys_json, requiredFields, requireFields.
    rewrite (isMember_Some _ _ _ Hk), (isMember_None _ _ Hs). reflexivity.
  - intros [kv Hk] [sv Hs] Hq.
    unfold make_ValidatorKeys_json, requiredFields, requireFields.
    rewrite (isMember_Some _ _ _ Hk), (isMember_Some _ _ _ Hs),
      (isMember_None _ _ Hq). reflexivity.
  - intros kv sv qv s Hk Hs Hq Hkv Hinv.
    rewrite (make_ValidatorKeys_json_present _ _ _ _ _ Hk Hs Hq).
    unfold validateFields. rewrite Hkv. simpl.
    destruct (decide (keyTypeFromString s = invalid)); [reflexivity | contradiction].
  - intros kv sv qv s s' Hk Hs Hq Hkv Hvalid Hsv Hparse.
    rewrite (make_ValidatorKeys_json_present _ _ _ _ _ Hk Hs Hq).
    unfold validateFields. rewrite Hkv. simpl.
    destruct (decide (keyTypeFromString s = invalid)); [contradiction |].
    rewrite Hsv. simpl. rewrite Hparse. reflexivity.
  - intros kv sv qv s s' sk Hk Hs Hq Hkv Hvalid Hsv Hparse Hint.
    rewrite (make_ValidatorKeys_json_present _ _ _ _ _ Hk Hs Hq).
    unfold validateFields. rewrite Hkv. simpl.
    destruct (decide (keyTypeFromString s = invalid)); [contradiction |].
    rewrite Hsv. simpl. rewrite Hparse, Hint. reflexivity.
  - intros kv sv qv s s' Hk Hs Hq Hkv Hinv _ _.
    rewrite (make_ValidatorKeys_json_present _ _ _ _ _ Hk Hs Hq).
    unfold validateFields. rewrite Hkv. simpl.
    destruct (decide (keyTypeFromString s = invalid)); [reflexivity | contradiction].
Qed.

(** Every value the code reports as an invalid sequence is one the spec
    calls not representable; the converse fails for a negative integer. *)
Lemma not_integral_not_representable (v : Json.Value) :
  Json.isIntegral v = false -> spec_representable_as_uint32 v = false.
Proof. destruct v; simpl; congruence. Qed.

(** A record with the three fields well formed loads, with the sequence
    its [sequence] field converts to. *)
Lemma make_ValidatorKeys_json_OK (keyFile : string) (jKeys : JsonObject)
    (kv sv qv : Json.Value) (s s' : string) (sk : SecretKey) (n : Z) :
  jKeys !! "key_type" = Some kv -> jKeys !! "master_secret" = Some sv ->
  jKeys !! "sequence" = Some qv ->
  asString kv = Json.Converted s -> keyTypeFromString s <> invalid ->
  asString sv = Json.Converted s' -> parseBase58_NODE_PRIVATE s' = Some sk ->
  Json.isIntegral qv = true -> asUInt qv = Json.Converted n ->
  make_ValidatorKeys_json keyFile jKeys
  = OK {| keyType_ := keyTypeFromString s;
          masterSecret_ := sk;
          validationPublicKey_ := derivePublicKey (keyTypeFromString s) sk;
          sequence_ := n |}.
Proof.
  intros Hk Hs Hq Hkv Hvalid Hsv Hparse Hint Hn.
  rewrite (make_ValidatorKeys_json_present _ _ _ _ _ Hk Hs Hq).
  unfold validateFields. rewrite Hkv. simpl.
  destruct (decide (keyTypeFromString s = invalid)); [contradiction |].
  rewrite Hsv. simpl. rewrite Hparse, Hint. simpl. rewrite Hn. reflexivity.
Qed.

(** C10.  The sequence of a record is not bounded below the 32-bit maximum:
    a record whose [sequence] is 4294967295 loads, and gives an identity
    that is already revoked (its counter is exhausted). *)
Theorem load_accepts_revoked_sequence (keyFile : string) (jKeys : JsonObject)
    (t : KeyType) (s : string) (sk : SecretKey) :
  t <> invalid ->
  jKeys !! "key_type" = Some (Json.stringValue (to_string t)) ->
  jKeys !! "master_secret" = Some (Json.stringValue s) ->
  parseBase58_NODE_PRIVATE s = Some sk ->
  jKeys !! "sequence" = Some (Json.uintValue UINT32_MAX) ->
  exists keys,
    make_ValidatorKeys_json keyFile jKeys = OK keys
    /\ sequence_ keys = 4294967295
    /\ keyType_ keys = t
    /\ masterSecret_ keys = sk
    /\ advanceSequence None keys = (Throw SequenceExhausted, keys)
    /\ (forall fs, files fs !! keyFile = Some (JsonDocument jKeys) ->
                  make_ValidatorKeys keyFile fs = OK keys).
Proof.
  intros Hvalid Hk Hs Hparse Hq.
  pose proof (keyTypeFromString_to_string t Hvalid) as Ht.
  assert (Hload := make_ValidatorKeys_json_OK keyFile jKeys _ _ _
                     (to_string t) s sk UINT32_MAX Hk Hs Hq eq_refl).
  rewrite Ht in Hload. specialize (Hload Hvalid eq_refl Hparse eq_refl eq_refl).
  eexists. split; [exact Hload |]. simpl. repeat split.
  intros fs0 Hfile. unfold make_ValidatorKeys. rewrite Hfile. exact Hload.
Qed.

(** The three ways a master identity comes to be keep the derivation
    invariant: generation, loading, and a change of sequence. *)
Lemma ValidatorKeys_new_Derived (t : KeyType) (seed : Seed) :
  GeneratedPairDerives -> Derived (ValidatorKeys_new t seed).
Proof. intros H. unfold Derived, ValidatorKeys_new. simpl. apply H. Qed.

Lemma setSequence_Derived (keys : ValidatorKeys) (s : Z) :
  Derived keys -> Derived (setSequence s keys).2.
Proof. intros H. exact H. Qed.

End KeyFile.


Example test_missing_key_type :
  TestFiles.load TestFiles.jv0 = Throw (MissingField TestFiles.keyFile "key_type").
Proof. vm_compute. reflexivity. Qed.

Example test_missing_master_secret :
  TestFiles.load TestFiles.jv1 = Throw (MissingField TestFiles.keyFile "master_secret").
Proof. vm_compute. reflexivity. Qed.

Example test_missing_sequence :
  TestFiles.load TestFiles.jv2 = Throw (MissingField TestFiles.keyFile "sequence").
Proof. vm_compute. reflexivity. Qed.

Example test_invalid_key_type :
  TestFiles.load TestFiles.jv3
  = Throw (InvalidKeyType TestFiles.keyFile (Json.stringValue "dummy keytype")).
Proof. vm_compute. reflexivity. Qed.

Example test_invalid_master_secret :
  TestFiles.load TestFiles.jv4
  = Throw (InvalidSecret TestFiles.keyFile (Json.stringValue "dummy secret")).
Proof. vm_compute. reflexivity. Qed.

Example test_invalid_sequence :
  TestFiles.load TestFiles.jv5
  = Throw (InvalidSequence TestFiles.keyFile (Json.stringValue "dummy sequence")).
Proof. vm_compute. reflexivity. Qed.

Example test_maximum_sequence_loads :
  TestFiles.load TestFiles.jv6 = OK (Toy.keysAt 4294967295).
Proof. vm_compute. reflexivity. Qed.

(** ** The manifest *)

Section Manifest.
Context `{L : RippleLib}.

Lemma createEphemeralKeys_eq (this : ValidatorKeys) (t : KeyType) (seed : Seed) :
  createEphemeralKeys t seed this =
    ({| eph_seed := seed;
        eph_manifest := base64_encode (STObject_add (signedManifest this t seed));
        eph_validationPublicKey := derivePublicKey t (generateSecretKey t seed) |},
     this).
Proof. reflexivity. Qed.

(** The signed manifest, field by field. *)
Lemma signedManifest_eq (this : ValidatorKeys) (t : KeyType) (seed : Seed) :
  signedManifest this t seed =
    [(sfSequence, STUInt32 (sequence_ this));
     (sfPublicKey, STBlob (validationPublicKey_ this));
     (sfSigningPubKey, STBlob (derivePublicKey t (generateSecretKey t seed)));
     (sfSignature,
      STBlob (sign_Slice t (generateSecretKey t seed)
                (ephemeralSigningData this t seed)));
     (sfMasterSignature,
      STBlob (sign_Slice (keyType_ this) (masterSecret_ this)
                (masterSigningData this t seed)))].
Proof. reflexivity. Qed.

(** Setting a signature field does not change the bytes that are signed. *)
Lemma signingFields_assign (st : STObject) (f : SField) (v : STValue) :
  isSigningField f = false ->
  signingFields (STObject_assign st f v) = signingFields st.
Proof.
  intros Hf. induction st as [| [g w] rest IH]; simpl.
  - rewrite Hf. reflexivity.
  - destruct (decide (g = f)) as [-> | Hne]; simpl.
    + rewrite Hf. reflexivity.
    + rewrite IH. reflexivity.
Qed.

Lemma signingData_assign (prefix : HashPrefix) (st : STObject) (f : SField)
    (v : STValue) :
  isSigningField f = false ->
  signingData prefix (STObject_assign st f v) = signingData prefix st.
Proof.
  intros Hf. unfold signingData, STObject_addWithoutSigningFields.
  rewrite (signingFields_assign st f v Hf). reflexivity.
Qed.

Lemma masterSigningData_eq (this : ValidatorKeys) (t : KeyType) (seed : Seed) :
  masterSigningData this t seed = ephemeralSigningData this t seed.
Proof.
  unfold masterSigningData, ephemeralSigningData, sign.
  apply signingData_assign. reflexivity.
Qed.

Lemma ephemeralSigningData_eq (this : ValidatorKeys) (t : KeyType) (seed : Seed) :
  ephemeralSigningData this t seed
  = (Serializer_add32 HashPrefix_manifest
     ++ Serializer_addFields (unsignedManifest this t seed))%list.
Proof. reflexivity. Qed.

(** The bytes signed for the complete manifest are those of the unsigned
    one. *)
Lemma signingData_signedManifest (this : ValidatorKeys) (t : KeyType) (seed : Seed) :
  signingData HashPrefix_manifest (signedManifest this t seed)
  = ephemeralSigningData this t seed.
Proof. reflexivity. Qed.

Lemma sortFields_signedManifest (this : ValidatorKeys) (t : KeyType) (seed : Seed) :
  sortFields (signedManifest this t seed) = signedManifest this t seed.
Proof. reflexivity. Qed.

Lemma decodeManifest_createEphemeralKeys (this : ValidatorKeys) (t : KeyType)
    (seed : Seed) :
  SerializerRoundTrip -> Base64RoundTrip ->
  decodeManifest (eph_manifest (createEphemeralKeys t seed this).1)
  = Some (signedManifest this t seed).
Proof.
  intros Hser Hb64. rewrite createEphemeralKeys_eq. simpl.
  unfold decodeManifest, STObject_add. rewrite Hb64, Hser.
  rewrite sortFields_signedManifest. reflexivity.
Qed.

(** C4, as amended.  The master signature of a manifest is computed over
    the hash prefix and the record of sequence, master public key and
    ephemeral public key: the same bytes the ephemeral signature is over.
    The ephemeral signature field is no part of them, whatever it holds. *)
Theorem master_signature_over_unsigned_record (this : ValidatorKeys)
    (t : KeyType) (seed : Seed) :
  eph_manifest (createEphemeralKeys t seed this).1
  = base64_encode (STObject_add (signedManifest this t seed))
  /\ STObject_get (signedManifest this t seed) sfMasterSignature
     = Some (STBlob (sign_Slice (keyType_ this) (masterSecret_ this)
                       (masterSigningData this t seed)))
  /\ masterSigningData this t seed
     = (Serializer_add32 HashPrefix_manifest
        ++ Serializer_addFields (unsignedManifest this t seed))%list
  /\ masterSigningData this t seed = ephemeralSigningData this t seed
  /\ (forall x : Blob,
        signingData HashPrefix_manifest
          (STObject_assign (signedManifest this t seed) sfSignature (STBlob x))
        = masterSigningData this t seed).
Proof.
  split; [reflexivity |]. split; [reflexivity |].
  split; [rewrite masterSigningData_eq; reflexivity |].
  split; [apply masterSigningData_eq |].
  intros x. rewrite signingData_assign by reflexivity.
  rewrite signingData_signedManifest. symmetry. apply masterSigningData_eq.
Qed.

(** The master signature of a manifest still verifies when the ephemeral
    signature is replaced by any other bytes. *)
Lemma master_signature_survives_tampering (this : ValidatorKeys) (t : KeyType)
    (seed : Seed) (x : Blob) :
  SignatureVerifies -> keyType_ this <> invalid -> Derived this ->
  verify (STObject_assign (signedManifest this t seed) sfSignature (STBlob x))
    HashPrefix_manifest (validationPublicKey_ this) sfMasterSignature = true.
Proof.
  intros Hsig Hvalid Hderived. unfold verify.
  rewrite signingData_assign by reflexivity.
  rewrite signingData_signedManifest, signedManifest_eq. simpl.
  generalize (masterSigningData_eq this t seed).
  generalize (masterSigningData this t seed). intros m ->.
  rewrite Hderived. apply Hsig. exact Hvalid.
Qed.

(** C5.  The manifest [createEphemeralKeys] returns decodes to an object
    that holds the two public keys, whose ephemeral signature verifies
    against the ephemeral public key and whose master signature verifies
    against the master public key; the ephemeral public key is the one the
    returned seed regenerates. *)
Theorem manifest_signatures_verify (this : ValidatorKeys) (t : KeyType)
    (seed : Seed) :
  SignatureVerifies -> SerializerRoundTrip -> Base64RoundTrip ->
  keyType_ this <> invalid -> Derived this -> t <> invalid ->
  exists st,
    decodeManifest (eph_manifest (createEphemeralKeys t seed this).1) = Some st
    /\ STObject_get st sfSigningPubKey
       = Some (STBlob (eph_validationPublicKey (createEphemeralKeys t seed this).1))
    /\ STObject_get st sfPublicKey = Some (STBlob (validationPublicKey_ this))
    /\ verify st HashPrefix_manifest
         (eph_validationPublicKey (createEphemeralKeys t seed this).1)
         sfSignature = true
    /\ verify st HashPrefix_manifest (validationPublicKey_ this)
         sfMasterSignature = true
    /\ eph_validationPublicKey (createEphemeralKeys t seed this).1
       = derivePublicKey t
           (generateSecretKey t (eph_seed (createEphemeralKeys t seed this).1)).
Proof.
  intros Hsig Hser Hb64 Hvalid Hderived Ht.
  exists (signedManifest this t seed).
  split; [apply decodeManifest_createEphemeralKeys; assumption |].
  rewrite createEphemeralKeys_eq. simpl.
  split; [reflexivity |]. split; [reflexivity |]. split; [| split].
  - unfold verify. rewrite signingData_signedManifest, signedManifest_eq. simpl.
    apply Hsig. exact Ht.
  - unfold verify. rewrite signingData_signedManifest, signedManifest_eq. simpl.
    generalize (masterSigningData_eq this t seed).
    generalize (masterSigningData this t seed). intros m ->.
    rewrite Hderived. apply Hsig. exact Hvalid.
  - reflexivity.
Qed.

(** C9.  [createEphemeralKeys] leaves the keys as they were (key type,
    secret, public key and sequence), and the sequence held in the manifest
    it returns is the sequence of the keys at the call. *)
Theorem createEphemeralKeys_frame (this : ValidatorKeys) (t : KeyType)
    (seed : Seed) :
  SerializerRoundTrip -> Base64RoundTrip ->
  (createEphemeralKeys t seed this).2 = this
  /\ keyType_ (createEphemeralKeys t seed this).2 = keyType_ this
  /\ masterSecret_ (createEphemeralKeys t seed this).2 = masterSecret_ this
  /\ validationPublicKey_ (createEphemeralKeys t seed this).2
     = validationPublicKey_ this
  /\ sequence_ (createEphemeralKeys t seed this).2 = sequence_ this
  /\ (exists st,
        decodeManifest (eph_manifest (createEphemeralKeys t seed this).1) = Some st
        /\ STObject_get st sfSequence = Some (STUInt32 (sequence_ this))).
Proof.
  intros Hser Hb64. repeat (split; [reflexivity |]).
  exists (signedManifest this t seed).
  split; [apply decodeManifest_createEphemeralKeys; assumption | reflexivity].
Qed.

End Manifest.

(** ** The small instance meets the laws *)

Lemma Toy_base58_round_trip : Base58RoundTrip (L := Toy.lib).
Proof.
  intros sk. simpl. unfold Toy.parseBase58, Toy.toBase58.
  destruct (decide ("p"%char = "p"%char)) as [_ | Hne]; [| contradiction].
  rewrite list_byte_of_string_of_list_byte. reflexivity.
Qed.

Lemma Toy_generated_pair_derives : GeneratedPairDerives (L := Toy.lib).
Proof. intros t seed. reflexivity. Qed.

Lemma Toy_signature_verifies : SignatureVerifies (L := Toy.lib).
Proof.
  intros t sk m _. simpl. unfold Toy.verifyBytes, Toy.signBytes.
  apply bool_decide_eq_true. reflexivity.
Qed.

Lemma Toy_base64_round_trip : Base64RoundTrip (L := Toy.lib).
Proof. intros b. apply list_byte_of_string_of_list_byte. Qed.

Lemma Toy_unframe_frame (b tail : Blob) :
  Toy.unframe (Toy.frame b ++ tail)%list = Some (b, tail).
Proof.
  induction b as [| x rest IH]; simpl.
  - destruct (decide (x00 = x00)); [reflexivity | contradiction].
  - destruct (decide (x01 = x00)); [discriminate |]. rewrite IH. reflexivity.
Qed.

Lemma Toy_positive_of_bytes_of_positive (p : positive) :
  Toy.positive_of_bytes (Toy.bytes_of_positive p) = p.
Proof.
  induction p as [q IH | q IH |]; simpl.
  - destruct (decide (x01 = x00)); [discriminate |]. rewrite IH. reflexivity.
  - destruct (decide (x00 = x00)); [| contradiction]. rewrite IH. reflexivity.
  - reflexivity.
Qed.

Lemma Toy_Z_of_bytes_of_Z (z : Z) : Toy.Z_of_bytes (Toy.bytes_of_Z z) = z.
Proof.
  destruct z as [| p | p]; simpl.
  - reflexivity.
  - destruct (decide (x01 = x01)); [| contradiction].
    rewrite Toy_positive_of_bytes_of_positive. reflexivity.
  - destruct (decide (x02 = x01)); [discriminate |].
    rewrite Toy_positive_of_bytes_of_positive. reflexivity.
Qed.

Lemma Toy_fieldOfByte_fieldByte (f : SField) :
  Toy.fieldOfByte (Toy.fieldByte f) = Some f.
Proof. destruct f; vm_compute; reflexivity. Qed.

Lemma Toy_getFields_fuel_addFields (fields : list (SField * STValue)) (n : nat) :
  (length fields < n)%nat ->
  Toy.getFields_fuel n (Toy.addFields fields) = Some fields.
Proof.
  revert n. induction fields as [| [f v] rest IH]; intros n Hn.
  - destruct n; [lia |]. reflexivity.
  - destruct n; [simpl in Hn; lia |].
    assert (Hrest : (length rest < n)%nat) by (simpl in Hn; lia).
    unfold Toy.addFields. simpl. fold (Toy.addFields rest).
    unfold Toy.addField. destruct v as [z | b]; simpl.
    + rewrite Toy_fieldOfByte_fieldByte, Toy_unframe_frame.
      rewrite (IH n Hrest), Toy_Z_of_bytes_of_Z. reflexivity.
    + rewrite Toy_fieldOfByte_fieldByte, Toy_unframe_frame.
      rewrite (IH n Hrest). reflexivity.
Qed.

Lemma Toy_length_addFields (fields : list (SField * STValue)) :
  (length fields <= length (Toy.addFields fields))%nat.
Proof.
  induction fields as [| [f v] rest IH]; [reflexivity |].
  unfold Toy.addFields. simpl. fold (Toy.addFields rest).
  rewrite length_app. unfold Toy.addField. destruct v; simpl; lia.
Qed.

Lemma Toy_serializer_round_trip : SerializerRoundTrip (L := Toy.lib).
Proof.
  intros fields. simpl. unfold Toy.getFields.
  apply Toy_getFields_fuel_addFields.
  pose proof (Toy_length_addFields fields). lia.
Qed.

(** ** The theorems at work on the small instance *)

Lemma Toy_dropLastElement_shorter (p : string) :
  p = EmptyString
  \/ (String.length (Toy.dropLastElement p) < String.length p)%nat.
Proof.
  induction p as [| c rest IH]; [left; reflexivity |]. right.
  cbn [Toy.dropLastElement].
  destruct (Toy.hasSeparator rest) eqn:Hsep; cbn [String.length]; [| lia].
  destruct IH as [-> | IH]; [discriminate Hsep | lia].
Qed.

Lemma Toy_parent_path_shorter : ParentPathShorter (L := Toy.lib).
Proof.
  intros p Hparent. destruct (Toy_dropLastElement_shorter p) as [-> | H];
    [destruct Hparent; reflexivity | exact H].
Qed.

(** The record with a public key that is not the master key's loads, and
    the public key of the loaded keys is the derived one. *)
Lemma loaded_public_key_is_derived_witness :
  TestFiles.load TestFiles.foreignPublicKey = OK (Toy.keysAt 4294967295)
  /\ Derived (Toy.keysAt 4294967295)
  /\ TestFiles.load (delete "validation_public_key" TestFiles.foreignPublicKey)
     = OK (Toy.keysAt 4294967295).
Proof.
  assert (H : TestFiles.load TestFiles.foreignPublicKey = OK (Toy.keysAt 4294967295))
    by (vm_compute; reflexivity).
  split; [exact H |].
  destruct (loaded_public_key_is_derived (L := Toy.lib) TestFiles.keyFile
              TestFiles.foreignPublicKey (Toy.keysAt 4294967295) H)
    as (Hd & _ & _ & Hdel).
  split; [exact Hd | exact Hdel].
Defined.

(** The identity at sequence 5 is read back from the record written for
    it. *)
Lemma save_load_round_trip_witness :
  make_ValidatorKeys_json (L := Toy.lib) TestFiles.keyFile
    (writeToFile_json (Toy.keysAt 5)).1 = OK (Toy.keysAt 5)
  /\ make_ValidatorKeys_json (L := Toy.lib) TestFiles.keyFile
       (<["sequence" := Json.intValue 5]> (writeToFile_json (Toy.keysAt 5)).1)
     = OK (Toy.keysAt 5).
Proof.
  destruct (save_load_round_trip (L := Toy.lib) TestFiles.keyFile (Toy.keysAt 5)
              Toy_base58_round_trip)
    as (Hload & _ & _ & Hread).
  - discriminate.
  - reflexivity.
  - split; [exact Hload |]. apply Hread. simpl. lia.
Defined.

(** The last key file of the test, with sequence 4294967295, loads. *)
Lemma load_accepts_revoked_sequence_witness :
  exists keys,
    TestFiles.load TestFiles.jv6 = OK keys
    /\ sequence_ keys = 4294967295
    /\ advanceSequence None keys = (Throw SequenceExhausted, keys).
Proof.
  destruct (load_accepts_revoked_sequence (L := Toy.lib) TestFiles.keyFile
              TestFiles.jv6 ed25519 TestFiles.secretText [x0a; x0b])
    as (keys & Hload & Hseq & _ & _ & Hadv & _).
  - discriminate.
  - vm_compute. reflexivity.
  - vm_compute. reflexivity.
  - vm_compute. reflexivity.
  - vm_compute. reflexivity.
  - exists keys. split; [exact Hload |]. split; [exact Hseq | exact Hadv].
Defined.

(** A manifest for the identity at sequence 5, signed with a secp256k1
    ephemeral key: both signatures verify. *)
Lemma manifest_signatures_verify_witness :
  exists st,
    decodeManifest (L := Toy.lib)
      (eph_manifest (createEphemeralKeys (L := Toy.lib) secp256k1 Toy.ephSeed (Toy.keysAt 5)).1)
    = Some st
    /\ verify (L := Toy.lib) st HashPrefix_manifest
         (Toy.derive secp256k1 [x01; x02]) sfSignature = true
    /\ verify (L := Toy.lib) st HashPrefix_manifest
         (validationPublicKey_ (Toy.keysAt 5)) sfMasterSignature = true.
Proof.
  destruct (manifest_signatures_verify (L := Toy.lib) (Toy.keysAt 5) secp256k1
              Toy.ephSeed Toy_signature_verifies Toy_serializer_round_trip
              Toy_base64_round_trip)
    as (st & Hdec & _ & _ & He & Hm & _).
  - discriminate.
  - reflexivity.
  - discriminate.
  - exists st. split; [exact Hdec |]. split; [exact He | exact Hm].
Defined.

(** The manifest for the identity at sequence 5 holds sequence 5. *)
Lemma createEphemeralKeys_frame_witness :
  (createEphemeralKeys (L := Toy.lib) secp256k1 Toy.ephSeed (Toy.keysAt 5)).2
  = Toy.keysAt 5
  /\ exists st,
       decodeManifest (L := Toy.lib)
         (eph_manifest (createEphemeralKeys (L := Toy.lib) secp256k1 Toy.ephSeed (Toy.keysAt 5)).1)
       = Some st
       /\ STObject_get st sfSequence = Some (STUInt32 5).
Proof.
  destruct (createEphemeralKeys_frame (L := Toy.lib) (Toy.keysAt 5) secp256k1
              Toy.ephSeed Toy_serializer_round_trip Toy_base64_round_trip)
    as (Hthis & _ & _ & _ & _ & Hst).
  split; [exact Hthis | exact Hst].
Defined.

(** C8 as stated fails: a sequence of -1 is not representable as an
    unsigned 32-bit integer, and the load does not report an invalid
    sequence; the JSON library refuses the conversion instead. *)
Lemma negative_sequence_not_reported_invalid :
  TestFiles.negativeSequence !! "sequence" = Some (Json.intValue (-1))
  /\ spec_representable_as_uint32 (Json.intValue (-1)) = false
  /\ Json.isIntegral (Json.intValue (-1)) = true
  /\ throwsInvalidSequence (TestFiles.load TestFiles.negativeSequence) = false
  /\ TestFiles.load TestFiles.negativeSequence
     = Throw (JsonError "Negative integer can not be converted to unsigned integer").
Proof. vm_compute. repeat split. Qed.

(** C4 as stated fails: the bytes the master secret signs are not the
    record with the ephemeral signature in it, and the master signature
    still verifies on a manifest whose ephemeral signature was replaced. *)
Lemma master_signature_does_not_cover_ephemeral_signature :
  bool_decide (masterSigningData (L := Toy.lib) (Toy.keysAt 5) secp256k1 Toy.ephSeed
               = spec_masterSigningData (Toy.keysAt 5) secp256k1 Toy.ephSeed)
  = false
  /\ verify (L := Toy.lib)
       (STObject_assign (signedManifest (Toy.keysAt 5) secp256k1 Toy.ephSeed)
          sfSignature (STBlob [x00]))
       HashPrefix_manifest (validationPublicKey_ (Toy.keysAt 5))
       sfMasterSignature = true
  /\ bool_decide (STObject_assign (signedManifest (L := Toy.lib) (Toy.keysAt 5)
                                   secp256k1 Toy.ephSeed)
                   sfSignature (STBlob [x00])
                 = signedManifest (Toy.keysAt 5) secp256k1 Toy.ephSeed) = false.
Proof. vm_compute. repeat split. Qed.

Section Commands.
Context `{L : RippleLib}.

Lemma signManifest_sequence_throw (keyFile : string) (requested : option Z)
    (seed : Seed) (w : World) (keys keys' : ValidatorKeys) (e : Error) :
  make_ValidatorKeys keyFile (fs w) = OK keys ->
  advanceSequence requested keys = (Throw e, keys') ->
  signManifest keyFile requested seed w = (Throw e, w).
Proof. unfold signManifest. intros -> ->. reflexivity. Qed.

Lemma signManifest_sequence_OK (keyFile : string) (requested : option Z)
    (seed : Seed) (w : World) (keys keys' : ValidatorKeys) :
  make_ValidatorKeys keyFile (fs w) = OK keys ->
  advanceSequence requested keys = (OK tt, keys') ->
  exists printed : World,
    fs printed = fs w
    /\ signManifest keyFile requested seed w =
       match refusals (fs w) !! keyFile with
       | Some OpenRefused => (Throw (CannotOpenKeyFile keyFile), printed)
       | _ =>
           (OK tt,
            {| fs := store (fs w) keyFile
                       (streamed keyFile (writeToFile_json keys').1 (fs w));
               cout := cout printed |})
       end.
Proof.
  intros Hload Hadv. unfold signManifest. rewrite Hload, Hadv.
  rewrite createEphemeralKeys_eq. cbv zeta.
  pose proof (make_ValidatorKeys_is_file _ _ _ Hload) as Hfile.
  destruct (sequence_ keys' =? UINT32_MAX); cbn [fs print];
    rewrite (writeToFile_existing _ _ keys' Hfile);
    (eexists; split;
     [| destruct (refusals (fs w) !! keyFile) as [[made | | remains] |];
        reflexivity]; reflexivity).
Qed.

Lemma runCommand_revoke (keyFile : string) (seed : Seed) (w : World) :
  runCommand ["revoke_master_keys"] keyFile seed w =
    ((_ ← (signManifest keyFile (Some UINT32_MAX) seed w).1; OK 0),
     (signManifest keyFile (Some UINT32_MAX) seed w).2).
Proof.
  unfold runCommand.
  destruct (signManifest keyFile (Some UINT32_MAX) seed w) as [r w'].
  reflexivity.
Qed.

Lemma runCommand_sign (keyFile : string) (seed : Seed) (w : World) :
  runCommand ["create_signing_keys"] keyFile seed w =
    ((_ ← (signManifest keyFile None seed w).1; OK 0),
     (signManifest keyFile None seed w).2).
Proof.
  unfold runCommand.
  destruct (signManifest keyFile None seed w) as [r w'].
  reflexivity.
Qed.

(** [signManifest] throws the error of the exhausted counter only where
    the sequence step does, and that is the step with no requested
    sequence. *)
Lemma signManifest_exhausted (keyFile : string) (requested : option Z)
    (seed : Seed) (w : World) :
  throwsSequenceExhausted (signManifest keyFile requested seed w).1 = true ->
  requested = None.
Proof.
  destruct (make_ValidatorKeys keyFile (fs w)) as [keys | e] eqn:Hload.
  - destruct (advanceSequence requested keys) as [[[] | e] keys'] eqn:Hstep.
    + destruct (signManifest_sequence_OK _ _ seed _ _ _ Hload Hstep)
        as (printed & _ & ->).
      destruct (refusals (fs w) !! keyFile) as [[made | | remains] |];
        discriminate.
    + unfold signManifest. rewrite Hload, Hstep. cbn [fst].
      destruct requested as [s |]; [| reflexivity].
      rewrite advanceSequence_Some in Hstep.
      destruct (s <=? sequence_ keys); injection Hstep as <- <-; discriminate.
  - unfold signManifest. rewrite Hload. cbn [fst].
    apply make_ValidatorKeys_throws_load_error in Hload.
    destruct e; try discriminate Hload; discriminate.
Qed.

(** C1, as amended.  Revoking an identity that is already revoked (its
    sequence is 4294967295) fails, and the keys and the key file are left
    as they were; the error is the one of a requested sequence that does
    not exceed the current one ("Sequence should exceed current sequence
    (4294967295)."), not the one of an exhausted counter.  The error of the
    exhausted counter is raised only by an advance with no requested
    sequence, and then only at 4294967295: no request for a sequence raises
    it, on the keys or through [signManifest], and the revocation command
    never does. *)
Theorem revoke_revoked_throws_not_increasing (keys : ValidatorKeys) :
  (sequence_ keys = UINT32_MAX ->
   revokeSequence keys = (Throw (SequenceNotIncreasing UINT32_MAX), keys)
   /\ isOK (revokeSequence keys).1 = false
   /\ throwsSequenceNotIncreasing (revokeSequence keys).1 = true
   /\ throwsSequenceExhausted (revokeSequence keys).1 = false
   /\ (forall keyFile seed w,
         make_ValidatorKeys keyFile (fs w) = OK keys ->
         runCommand ["revoke_master_keys"] keyFile seed w
         = (Throw (SequenceNotIncreasing UINT32_MAX), w)))
  /\ (forall requested,
        throwsSequenceExhausted (advanceSequence requested keys).1 = true ->
        requested = None /\ sequence_ keys = UINT32_MAX)
  /\ (forall s, throwsSequenceExhausted (advanceSequence (Some s) keys).1 = false)
  /\ (forall requested keyFile seed w,
        throwsSequenceExhausted (signManifest keyFile requested seed w).1 = true ->
        requested = None)
  /\ (forall keyFile seed w,
        throwsSequenceExhausted
          (runCommand ["revoke_master_keys"] keyFile seed w).1 = false).
Proof.
  split; [| split; [| split; [| split]]].
  - intros Hmax.
    assert (Hstep :
      revokeSequence keys = (Throw (SequenceNotIncreasing UINT32_MAX), keys)).
    { unfold revokeSequence. rewrite advanceSequence_Some, Hmax. reflexivity. }
    split; [exact Hstep |]. rewrite Hstep.
    do 3 (split; [reflexivity |]).
    intros keyFile seed w Hload. rewrite runCommand_revoke.
    rewrite (signManifest_sequence_throw _ _ _ _ _ _ _ Hload Hstep). reflexivity.
  - intros [s |].
    + rewrite advanceSequence_Some.
      destruct (s <=? sequence_ keys); discriminate.
    + rewrite advanceSequence_None.
      destruct (Z.eqb_spec (sequence_ keys) UINT32_MAX) as [Hmax | _];
        [intros _; split; [reflexivity | exact Hmax] | discriminate].
  - intros s. rewrite advanceSequence_Some.
    destruct (s <=? sequence_ keys); reflexivity.
  - intros requested keyFile seed w. apply signManifest_exhausted.
  - intros keyFile seed w. rewrite runCommand_revoke. cbn [fst].
    destruct (throwsSequenceExhausted
                (signManifest keyFile (Some UINT32_MAX) seed w).1) eqn:Hthrows.
    + apply signManifest_exhausted in Hthrows. discriminate Hthrows.
    + destruct (signManifest keyFile (Some UINT32_MAX) seed w).1 as [[] | e];
        [reflexivity | exact Hthrows].
Qed.

(** C2.  An advance to a requested sequence [s] succeeds exactly when [s]
    exceeds the current sequence, and then the sequence becomes [s] (and
    the key file is written with it); otherwise it throws "Sequence should
    exceed current sequence" and the keys and the key file are left as
    they were. *)
Theorem advance_requested_iff_increasing (keys : ValidatorKeys) (s : Z) :
  (isOK (advanceSequence (Some s) keys).1 = true <-> s > sequence_ keys)
  /\ (s > sequence_ keys ->
      advanceSequence (Some s) keys = (OK tt, withSequence keys s)
      /\ sequence_ (advanceSequence (Some s) keys).2 = s)
  /\ (~ s > sequence_ keys ->
      advanceSequence (Some s) keys
        = (Throw (SequenceNotIncreasing (sequence_ keys)), keys)
      /\ throwsSequenceNotIncreasing (advanceSequence (Some s) keys).1 = true
      /\ sequence_ (advanceSequence (Some s) keys).2 = sequence_ keys)
  /\ (forall keyFile seed w,
        make_ValidatorKeys keyFile (fs w) = OK keys ->
        (~ s > sequence_ keys ->
         signManifest keyFile (Some s) seed w
         = (Throw (SequenceNotIncreasing (sequence_ keys)), w))
        /\ (s > sequence_ keys -> refusals (fs w) !! keyFile = None ->
            (signManifest keyFile (Some s) seed w).1 = OK tt
            /\ files (fs (signManifest keyFile (Some s) seed w).2) !! keyFile
               = Some (JsonDocument (writeToFile_json (withSequence keys s)).1))).
Proof.
  assert (Hstep := advanceSequence_Some s keys).
  destruct (Z.leb_spec s (sequence_ keys)) as [Hle | Hgt].
  - rewrite Hstep. simpl.
    split; [split; [discriminate | lia] |].
    split; [lia |]. split; [intros _; repeat split |].
    intros keyFile seed w Hload. split; [| lia].
    intros _. apply (signManifest_sequence_throw _ _ _ _ _ _ _ Hload Hstep).
  - rewrite Hstep. simpl.
    split; [split; [lia | reflexivity] |].
    split; [intros _; repeat split |]. split; [lia |].
    intros keyFile seed w Hload. split; [lia |]. intros _ Hfree.
    destruct (signManifest_sequence_OK _ _ seed _ _ _ Hload Hstep)
      as (printed & _ & Hsign).
    rewrite Hfree in Hsign. rewrite Hsign. cbn [fst snd fs files store].
    unfold streamed. rewrite Hfree.
    split; [reflexivity | apply lookup_insert_eq].
Qed.

(** C3.  An advance with no requested sequence moves the sequence to the
    next number when it is below 4294967295 (and the key file is written
    with it), and throws "Sequence is already at maximum value" exactly
    when it is 4294967295. *)
Theorem advance_next_or_exhausted (keys : ValidatorKeys) :
  is_uint32 (sequence_ keys) ->
  (sequence_ keys < UINT32_MAX ->
   advanceSequence None keys = (OK tt, withSequence keys (sequence_ keys + 1))
   /\ sequence_ (advanceSequence None keys).2 = sequence_ keys + 1)
  /\ (sequence_ keys = UINT32_MAX ->
      advanceSequence None keys = (Throw SequenceExhausted, keys))
  /\ (throwsSequenceExhausted (advanceSequence None keys).1 = true
      <-> sequence_ keys = UINT32_MAX)
  /\ (isOK (advanceSequence None keys).1 = false
      <-> sequence_ keys = UINT32_MAX)
  /\ (forall keyFile seed w,
        make_ValidatorKeys keyFile (fs w) = OK keys ->
        (sequence_ keys = UINT32_MAX ->
         signManifest keyFile None seed w = (Throw SequenceExhausted, w))
        /\ (sequence_ keys < UINT32_MAX -> refusals (fs w) !! keyFile = None ->
            (signManifest keyFile None seed w).1 = OK tt
            /\ files (fs (signManifest keyFile None seed w).2) !! keyFile
               = Some (JsonDocument
                         (writeToFile_json
                            (withSequence keys (sequence_ keys + 1))).1))).
Proof.
  intros [Hlo Hhi]. assert (Hstep := advanceSequence_None keys).
  destruct (Z.eqb_spec (sequence_ keys) UINT32_MAX) as [Heq | Hne].
  - rewrite Hstep. simpl.
    split; [lia |]. split; [reflexivity |].
    split; [split; auto |]. split; [split; auto |].
    intros keyFile seed w Hload. split; [| lia].
    intros _. apply (signManifest_sequence_throw _ _ _ _ _ _ _ Hload Hstep).
  - assert (Hw : wrap32 (sequence_ keys + 1) = sequence_ keys + 1).
    { unfold wrap32. apply Z.mod_small. unfold UINT32_MAX in *. lia. }
    rewrite Hw in Hstep. rewrite Hstep. simpl.
    split; [intros _; repeat split |]. split; [contradiction |].
    split; [split; [discriminate | contradiction] |].
    split; [split; [discriminate | contradiction] |].
    intros keyFile seed w Hload. split; [contradiction |]. intros _ Hfree.
    destruct (signManifest_sequence_OK _ _ seed _ _ _ Hload Hstep)
      as (printed & _ & Hsign).
    rewrite Hfree in Hsign. rewrite Hsign. cbn [fst snd fs files store].
    unfold streamed. rewrite Hfree.
    split; [reflexivity | apply lookup_insert_eq].
Qed.

End Commands.

(** The identity at sequence 5 moves to 6. *)
Lemma advance_next_or_exhausted_witness :
  is_uint32 (sequence_ (Toy.keysAt 5))
  /\ advanceSequence None (Toy.keysAt 5) = (OK tt, Toy.keysAt 6).
Proof.
  assert (H : is_uint32 (sequence_ (Toy.keysAt 5))).
  { unfold is_uint32, UINT32_MAX. simpl. lia. }
  split; [exact H |].
  destruct (advance_next_or_exhausted (Toy.keysAt 5) H) as [Hnext _].
  destruct Hnext as [Hnext _]; [unfold UINT32_MAX; simpl; lia |].
  exact Hnext.
Defined.

(** The revoked identity cannot be revoked again, and the key file of the
    test with sequence 4294967295 is left as it was. *)
Lemma revoke_revoked_throws_not_increasing_witness :
  sequence_ (Toy.keysAt 4294967295) = UINT32_MAX
  /\ revokeSequence (Toy.keysAt 4294967295)
     = (Throw (SequenceNotIncreasing 4294967295), Toy.keysAt 4294967295)
  /\ TestFiles.run "revoke_master_keys" (TestFiles.worldWith TestFiles.jv6)
     = (Throw (SequenceNotIncreasing 4294967295), TestFiles.worldWith TestFiles.jv6).
Proof.
  split; [reflexivity |].
  destruct (revoke_revoked_throws_not_increasing (Toy.keysAt 4294967295))
    as [Hrevoked _].
  destruct (Hrevoked eq_refl) as (Hstep & _ & _ & _ & Hcommand).
  split; [exact Hstep |].
  apply Hcommand. vm_compute. reflexivity.
Defined.

(** C1 as stated fails: on a revoked identity the revocation does not
    throw the error of the exhausted counter. *)
Lemma revoke_revoked_not_exhausted :
  sequence_ (Toy.keysAt 4294967295) = 4294967295
  /\ throwsSequenceExhausted (revokeSequence (Toy.keysAt 4294967295)).1 = false
  /\ (revokeSequence (Toy.keysAt 4294967295)).1
     = Throw (SequenceNotIncreasing 4294967295)
  /\ TestFiles.keysIn (TestFiles.worldWith TestFiles.jv6)
     = OK (Toy.keysAt 4294967295)
  /\ (TestFiles.run "revoke_master_keys" (TestFiles.worldWith TestFiles.jv6)).1
     = Throw (SequenceNotIncreasing 4294967295)
  /\ what (L := Toy.lib) (SequenceNotIncreasing 4294967295)
     = "Sequence should exceed current sequence (4294967295).".
Proof. vm_compute. repeat split. Qed.

(** ** The spec's scenarios, run on the small instance *)

(** Scenario A: a created identity has sequence 0, its public key is the
    derived one, and the key file gives it back. *)
Example scenario_create :
  (TestFiles.run "create_master_keys" TestFiles.emptyWorld).1 = OK 0
  /\ TestFiles.keysIn (TestFiles.run "create_master_keys" TestFiles.emptyWorld).2
     = OK (ValidatorKeys_new (L := Toy.lib) ed25519 Toy.ephSeed)
  /\ sequence_ (ValidatorKeys_new (L := Toy.lib) ed25519 Toy.ephSeed) = 0
  /\ (TestFiles.run "create_master_keys"
        (TestFiles.run "create_master_keys" TestFiles.emptyWorld).2).1
     = Throw (RefusingToOverwrite TestFiles.keyFile).
Proof. vm_compute. repeat split. Qed.

(** Scenario B: signing from sequence 0 leaves sequence 1 in the key file. *)
Example scenario_sign :
  (TestFiles.run "create_signing_keys"
     (TestFiles.run "create_master_keys" TestFiles.emptyWorld).2).1 = OK 0
  /\ TestFiles.keysIn
       (TestFiles.run "create_signing_keys"
          (TestFiles.worldWith (writeToFile_json (Toy.keysAt 0)).1)).2
     = OK (Toy.keysAt 1).
Proof. vm_compute. repeat split. Qed.

(** Scenario C: revoking from sequence 5 leaves 4294967295 in the key
    file; after that, signing throws for the exhausted counter and revoking
    throws for a sequence that does not increase. *)
Example scenario_revoke :
  TestFiles.keysIn
    (TestFiles.run "revoke_master_keys"
       (TestFiles.worldWith (writeToFile_json (Toy.keysAt 5)).1)).2
  = OK (Toy.keysAt 4294967295)
  /\ (TestFiles.run "create_signing_keys"
        (TestFiles.run "revoke_master_keys"
           (TestFiles.worldWith (writeToFile_json (Toy.keysAt 5)).1)).2).1
     = Throw SequenceExhausted
  /\ (TestFiles.run "revoke_master_keys"
        (TestFiles.run "revoke_master_keys"
           (TestFiles.worldWith (writeToFile_json (Toy.keysAt 5)).1)).2).1
     = Throw (SequenceNotIncreasing 4294967295).
Proof. vm_compute. repeat split. Qed.

(** Scenario E: from sequence 10, a request for 5 is refused. *)
Example scenario_not_increasing :
  advanceSequence (Some 5) (Toy.keysAt 10)
  = (Throw (SequenceNotIncreasing 10), Toy.keysAt 10).
Proof. reflexivity. Qed.

(** ** The life of a master identity *)

Section Lifecycle.
Context `{L : RippleLib}.

(** [createKeyFile] refuses to overwrite a key file that is there, and
    touches nothing. *)
Theorem createKeyFile_refuses_existing (keyFile : string) (seed : Seed) (w : World) :
  exists_ (fs w) keyFile = true ->
  createKeyFile keyFile seed w = (Throw (RefusingToOverwrite keyFile), w).
Proof. intros H. unfold createKeyFile. rewrite H. reflexivity. Qed.

(** A new identity starts at sequence 0, with the key type asked for and
    the public key derived from its secret. *)
Theorem new_keys_start_at_zero (t : KeyType) (seed : Seed) :
  GeneratedPairDerives ->
  sequence_ (ValidatorKeys_new t seed) = 0
  /\ keyType_ (ValidatorKeys_new t seed) = t
  /\ Derived (ValidatorKeys_new t seed).
Proof.
  intros H. split; [reflexivity |]. split; [reflexivity |].
  unfold Derived, ValidatorKeys_new. simpl. apply H.
Qed.

(** Every sequence step that succeeds moves the sequence strictly up. *)
Lemma advanceSequence_increases (requested : option Z) (keys keys' : ValidatorKeys) :
  is_uint32 (sequence_ keys) ->
  advanceSequence requested keys = (OK tt, keys') ->
  sequence_ keys < sequence_ keys'
  /\ keyType_ keys' = keyType_ keys
  /\ masterSecret_ keys' = masterSecret_ keys
  /\ validationPublicKey_ keys' = validationPublicKey_ keys.
Proof.
  intros [Hlo Hhi] Hstep. destruct requested as [s |].
  - rewrite advanceSequence_Some in Hstep.
    destruct (Z.leb_spec s (sequence_ keys)); [discriminate |].
    injection Hstep as <-. simpl. repeat split. lia.
  - rewrite advanceSequence_None in Hstep.
    destruct (Z.eqb_spec (sequence_ keys) UINT32_MAX); [discriminate |].
    injection Hstep as <-. simpl. repeat split.
    unfold wrap32. rewrite Z.mod_small; unfold UINT32_MAX in *; lia.
Qed.


(** Revoking an identity that is not revoked yet sets its sequence to
    4294967295, and nothing moves it from there: the next step throws for
    the exhausted counter, a request for any sequence is refused. *)
Theorem revocation_is_terminal (keys : ValidatorKeys) :
  sequence_ keys < UINT32_MAX ->
  revokeSequence keys = (OK tt, withSequence keys UINT32_MAX)
  /\ sequence_ (revokeSequence keys).2 = 4294967295
  /\ advanceSequence None (revokeSequence keys).2
     = (Throw SequenceExhausted, (revokeSequence keys).2)
  /\ (forall s, is_uint32 s ->
        advanceSequence (Some s) (revokeSequence keys).2
        = (Throw (SequenceNotIncreasing UINT32_MAX), (revokeSequence keys).2)).
Proof.
  intros Hlt.
  assert (Hstep : revokeSequence keys = (OK tt, withSequence keys UINT32_MAX)).
  { unfold revokeSequence. rewrite advanceSequence_Some.
    destruct (Z.leb_spec UINT32_MAX (sequence_ keys)); [lia | reflexivity]. }
  rewrite Hstep. cbn [fst snd].
  split; [reflexivity |]. split; [reflexivity |]. split; [reflexivity |].
  intros s [_ Hs]. rewrite advanceSequence_Some.
  change (sequence_ (withSequence keys UINT32_MAX)) with UINT32_MAX.
  destruct (Z.leb_spec s UINT32_MAX); [reflexivity | lia].
Qed.

End Lifecycle.

Lemma createKeyFile_refuses_existing_witness :
  createKeyFile (L := Toy.lib) TestFiles.keyFile Toy.ephSeed
    (TestFiles.worldWith TestFiles.jv6)
  = (Throw (RefusingToOverwrite TestFiles.keyFile),
     TestFiles.worldWith TestFiles.jv6).
Proof.
  apply (createKeyFile_refuses_existing (L := Toy.lib)).
  vm_compute. reflexivity.
Defined.

Lemma new_keys_start_at_zero_witness :
  sequence_ (ValidatorKeys_new (L := Toy.lib) secp256k1 Toy.ephSeed) = 0
  /\ keyType_ (ValidatorKeys_new (L := Toy.lib) secp256k1 Toy.ephSeed) = secp256k1
  /\ Derived (ValidatorKeys_new (L := Toy.lib) secp256k1 Toy.ephSeed).
Proof.
  apply (new_keys_start_at_zero (L := Toy.lib) secp256k1 Toy.ephSeed
           Toy_generated_pair_derives).
Defined.


Lemma revocation_is_terminal_witness :
  revokeSequence (Toy.keysAt 5) = (OK tt, Toy.keysAt 4294967295)
  /\ advanceSequence None (Toy.keysAt 4294967295)
     = (Throw SequenceExhausted, Toy.keysAt 4294967295).
Proof.
  destruct (revocation_is_terminal (Toy.keysAt 5)) as (Hrevoke & _ & Hnext & _).
  - unfold UINT32_MAX. simpl. lia.
  - split; [exact Hrevoke |]. rewrite Hrevoke in Hnext. exact Hnext.
Defined.

(** * Further properties of the code *)

(** ** Texts *)

Lemma append_cons (x : ascii) (a b : string) :
  String x a +:+ b = String x (a +:+ b).
Proof. reflexivity. Qed.

Lemma append_assoc (a b c : string) : (a +:+ b) +:+ c = a +:+ (b +:+ c).
Proof.
  induction a as [| x a IH]; [reflexivity |].
  rewrite !append_cons. f_equal. exact IH.
Qed.

Lemma append_empty_r (a : string) : a +:+ EmptyString = a.
Proof.
  induction a as [| x a IH]; [reflexivity |].
  rewrite append_cons. f_equal. exact IH.
Qed.

Lemma length_append (a b : string) :
  String.length (a +:+ b) = (String.length a + String.length b)%nat.
Proof.
  induction a as [| x a IH]; [reflexivity |].
  rewrite append_cons. simpl. f_equal. exact IH.
Qed.

Lemma substring_prefix_length (m : nat) (s : string) :
  String.length (String.substring 0 m s) = Nat.min m (String.length s).
Proof.
  revert m. induction s as [| c s IH]; intros [| m]; simpl; try reflexivity.
  rewrite IH. reflexivity.
Qed.

Lemma substring_split (n : nat) (s : string) :
  String.substring 0 n s +:+ String.substring n (String.length s - n) s = s.
Proof.
  revert n. induction s as [| c s IH]; intros [| n]; try reflexivity.
  - specialize (IH 0%nat).
    change (String.substring 0 0 (String c s)) with EmptyString.
    change (EmptyString +:+ ?x) with x.
    change (String.length (String c s) - 0)%nat with (S (String.length s)).
    change (String.substring 0 (S (String.length s)) (String c s))
      with (String c (String.substring 0 (String.length s) s)).
    f_equal. rewrite Nat.sub_0_r in IH. destruct s; exact IH.
  - change (String.substring 0 (S n) (String c s))
      with (String c (String.substring 0 n s)).
    change (String.substring (S n) (String.length (String c s) - S n) (String c s))
      with (String.substring n (String.length s - n) s).
    rewrite append_cons. f_equal. apply IH.
Qed.

Lemma substring_suffix_length (n : nat) (s : string) :
  String.length (String.substring n (String.length s - n) s)
  = (String.length s - n)%nat.
Proof.
  pose proof (f_equal String.length (substring_split n s)) as H.
  rewrite length_append, substring_prefix_length in H. lia.
Qed.

(** The loop of [printWrapped], with any bound that the text fits. *)
Lemma printWrapped_decomposes (n len : nat) (text : string) :
  (0 < len)%nat -> (String.length text <= n)%nat ->
  exists lines : list string,
    printWrapped n len text = printedLines lines
    /\ joinLines lines = text
    /\ Forall (fun line => (0 < String.length line <= len)%nat) lines
    /\ (forall (i : nat) (line : string),
          lines !! i = Some line -> (S i < length lines)%nat ->
          String.length line = len).
Proof.
  intros Hlen. revert text. induction n as [| n IH]; intros text Hfit.
  - exists []. destruct text; [| simpl in Hfit; lia].
    repeat split; [constructor | intros i line H; discriminate].
  - simpl. destruct (decide (text = EmptyString)) as [-> | Hne].
    + exists []. repeat split; [constructor | intros i line H; discriminate].
    + assert (Hpos : (0 < String.length text)%nat)
        by (destruct text; [contradiction | simpl; lia]).
      pose proof (substring_suffix_length len text) as Hrest.
      pose proof (substring_prefix_length len text) as Hfirst.
      destruct (IH (String.substring len (String.length text - len) text))
        as (lines & Hprint & Hjoin & Hall & Hfull); [lia |].
      exists (String.substring 0 len text :: lines).
      split; [rewrite Hprint; reflexivity |].
      split; [simpl; rewrite Hjoin; apply substring_split |].
      split; [constructor; [lia | exact Hall] |].
      intros [| i] line Hi Hlast; simpl in *.
      * injection Hi as <-. destruct lines as [| l lines]; [simpl in Hlast; lia |].
        simpl in Hjoin.
        pose proof (f_equal String.length Hjoin) as Hl.
        rewrite length_append in Hl.
        apply Forall_cons in Hall as [Hl0 _]. lia.
      * apply (Hfull i line Hi). lia.
Qed.

Section Output.
Context `{L : RippleLib}.

(** The manifest is printed in lines: each is ended by a line end, none is
    empty or longer than [len], all but the last are [len] long, and put
    together again they are the manifest. *)
Theorem printWrapped_lines (len : nat) (manifest : string) :
  (0 < len)%nat ->
  exists lines : list string,
    printWrapped (String.length manifest) len manifest = printedLines lines
    /\ joinLines lines = manifest
    /\ Forall (fun line => (0 < String.length line <= len)%nat) lines
    /\ (forall (i : nat) (line : string),
          lines !! i = Some line -> (S i < length lines)%nat ->
          String.length line = len).
Proof. intros Hlen. apply printWrapped_decomposes; [exact Hlen | lia]. Qed.

End Output.

(** ** What the commands do to the world *)

Section Outcomes.
Context `{L : RippleLib}.

Lemma print_print (w : World) (a b : string) :
  print (print w a) b = print w (a +:+ b).
Proof. unfold print. simpl. rewrite append_assoc. reflexivity. Qed.

Lemma signManifest_load_throw (keyFile : string) (requested : option Z)
    (seed : Seed) (w : World) (e : Error) :
  make_ValidatorKeys keyFile (fs w) = Throw e ->
  signManifest keyFile requested seed w = (Throw e, w).
Proof. unfold signManifest. intros ->. reflexivity. Qed.

(** [signManifest] once the keys are loaded and the sequence has moved:
    the report is printed, then the key file is written.  The key file is
    there, so no directory is made; the file opens unless the file system
    refuses, and holds what was streamed. *)
Lemma signManifest_printed (keyFile : string) (requested : option Z)
    (seed : Seed) (w : World) (keys keys' : ValidatorKeys) :
  make_ValidatorKeys keyFile (fs w) = OK keys ->
  advanceSequence requested keys = (OK tt, keys') ->
  signManifest keyFile requested seed w =
    match refusals (fs w) !! keyFile with
    | Some OpenRefused =>
        (Throw (CannotOpenKeyFile keyFile),
         print w (signManifestOutput keys' seed))
    | _ =>
        (OK tt,
         {| fs := store (fs w) keyFile
                    (streamed keyFile (writeToFile_json keys').1 (fs w));
            cout := cout w +:+ signManifestOutput keys' seed |})
    end.
Proof.
  intros Hload Hadv. unfold signManifest. rewrite Hload, Hadv.
  rewrite createEphemeralKeys_eq. cbv zeta.
  pose proof (make_ValidatorKeys_is_file _ _ _ Hload) as Hfile.
  unfold signManifestOutput, signManifestReport, revocationWarning.
  rewrite createEphemeralKeys_eq. cbn [fst snd eph_seed eph_manifest
    eph_validationPublicKey].
  destruct (sequence_ keys' =? UINT32_MAX).
  - rewrite !print_print. cbn [fs cout print].
    rewrite (writeToFile_existing _ _ keys' Hfile).
    rewrite ?append_assoc.
    destruct (refusals (fs w) !! keyFile) as [[made | | remains] |];
      reflexivity.
  - rewrite !print_print. cbn [fs cout print].
    rewrite (writeToFile_existing _ _ keys' Hfile).
    rewrite ?append_assoc.
    destruct (refusals (fs w) !! keyFile) as [[made | | remains] |];
      reflexivity.
Qed.

(** The errors of loading are none of the errors of the arguments. *)
Lemma make_ValidatorKeys_error (keyFile : string) (fs : FileSystem) (e : Error) :
  make_ValidatorKeys keyFile fs = Throw e -> isArgumentError e = false.
Proof.
  intros H. apply make_ValidatorKeys_throws_load_error in H.
  destruct e; try discriminate H; reflexivity.
Qed.

(** A sequence step that throws leaves the keys as they were, and its
    error is none of the errors of the arguments. *)
Lemma advanceSequence_Throw (requested : option Z) (keys keys' : ValidatorKeys)
    (e : Error) :
  advanceSequence requested keys = (Throw e, keys') ->
  keys' = keys /\ isArgumentError e = false.
Proof.
  destruct requested as [s |].
  - rewrite advanceSequence_Some. destruct (s <=? sequence_ keys);
      intros [= <- <-]; split; reflexivity.
  - rewrite advanceSequence_None. destruct (sequence_ keys =? UINT32_MAX);
      intros [= <- <-]; split; reflexivity.
Qed.

(** The three ways [signManifest] ends: the key file does not load, the
    sequence does not move, or the report is printed and the key file is
    written as far as the file system lets it. *)
Lemma signManifest_cases (keyFile : string) (requested : option Z) (seed : Seed)
    (w : World) :
  (exists e, make_ValidatorKeys keyFile (fs w) = Throw e
             /\ isArgumentError e = false
             /\ signManifest keyFile requested seed w = (Throw e, w))
  \/ (exists keys e, make_ValidatorKeys keyFile (fs w) = OK keys
             /\ advanceSequence requested keys = (Throw e, keys)
             /\ isArgumentError e = false
             /\ signManifest keyFile requested seed w = (Throw e, w))
  \/ (exists keys keys', make_ValidatorKeys keyFile (fs w) = OK keys
             /\ advanceSequence requested keys = (OK tt, keys')
             /\ signManifest keyFile requested seed w =
                match refusals (fs w) !! keyFile with
                | Some OpenRefused =>
                    (Throw (CannotOpenKeyFile keyFile),
                     print w (signManifestOutput keys' seed))
                | _ =>
                    (OK tt,
                     {| fs := store (fs w) keyFile
                                (streamed keyFile (writeToFile_json keys').1 (fs w));
                        cout := cout w +:+ signManifestOutput keys' seed |})
                end).
Proof.
  destruct (make_ValidatorKeys keyFile (fs w)) as [keys | e] eqn:Hload.
  - destruct (advanceSequence requested keys) as [[[] | e] keys'] eqn:Hadv.
    + right. right. exists keys, keys'. split; [reflexivity |].
      split; [exact Hadv |]. apply (signManifest_printed _ _ _ _ _ _ Hload Hadv).
    + right. left. destruct (advanceSequence_Throw _ _ _ _ Hadv) as [-> Harg].
      exists keys, e. split; [reflexivity |]. split; [exact Hadv |].
      split; [exact Harg |]. unfold signManifest. rewrite Hload, Hadv. reflexivity.
  - left. exists e. split; [reflexivity |].
    split; [apply (make_ValidatorKeys_error _ _ _ Hload) |].
    apply signManifest_load_throw. exact Hload.
Qed.

(** The ways [createKeyFile] ends. *)
Lemma createKeyFile_cases (keyFile : string) (seed : Seed) (w : World) :
  createKeyFile keyFile seed w =
    if exists_ (fs w) keyFile then (Throw (RefusingToOverwrite keyFile), w)
    else
      match (writeToFile keyFile (fs w) (ValidatorKeys_new ed25519 seed)).1 with
      | (Throw e, fs') => (Throw e, {| fs := fs'; cout := cout w |})
      | (OK _, fs') =>
          (OK tt,
           {| fs := fs';
              cout := cout w +:+ ("Master validator keys stored in "
                                    +:+ keyFile +:+ endl) |})
      end.
Proof.
  unfold createKeyFile. destruct (exists_ (fs w) keyFile); [reflexivity |].
  destruct (writeToFile keyFile (fs w) (ValidatorKeys_new ed25519 seed))
    as [[[[] | e] fs'] keys']; reflexivity.
Qed.

(** [runCommand] on one argument. *)
Lemma runCommand_one (command keyFile : string) (seed : Seed) (w : World) :
  runCommand [command] keyFile seed w =
    if decide (command = "create_master_keys")
    then ((_ ← (createKeyFile keyFile seed w).1; OK 0),
          (createKeyFile keyFile seed w).2)
    else if decide (command = "create_signing_keys")
    then ((_ ← (signManifest keyFile None seed w).1; OK 0),
          (signManifest keyFile None seed w).2)
    else if decide (command = "revoke_master_keys")
    then ((_ ← (signManifest keyFile (Some UINT32_MAX) seed w).1; OK 0),
          (signManifest keyFile (Some UINT32_MAX) seed w).2)
    else (Throw UnknownCommand, w).
Proof.
  unfold runCommand.
  destruct (decide (command = "create_master_keys"));
    [destruct (createKeyFile keyFile seed w); reflexivity |].
  destruct (decide (command = "create_signing_keys"));
    [destruct (signManifest keyFile None seed w); reflexivity |].
  destruct (decide (command = "revoke_master_keys"));
    [destruct (signManifest keyFile (Some UINT32_MAX) seed w); reflexivity |].
  reflexivity.
Qed.

Lemma effect_unchanged {A : Type} (keyFile : string) (w : World) (e : Error) :
  commandEffect keyFile w (@Throw A e) w.
Proof.
  split; [reflexivity |]. split; [reflexivity |]. split; [reflexivity |].
  split; [exists EmptyString; symmetry; apply append_empty_r |].
  intros e' _. split; reflexivity.
Qed.

Lemma signManifest_effect (keyFile : string) (requested : option Z) (seed : Seed)
    (w : World) :
  commandEffect keyFile w (signManifest keyFile requested seed w).1
    (signManifest keyFile requested seed w).2
  /\ (forall e, (signManifest keyFile requested seed w).1 = Throw e ->
        isArgumentError e = false).
Proof.
  destruct (signManifest_cases keyFile requested seed w)
    as [(e & _ & Harg & ->) | [(keys & e & _ & _ & Harg & ->)
                              | (keys & keys' & _ & _ & ->)]].
  - split; [apply effect_unchanged | intros e' [= <-]; exact Harg].
  - split; [apply effect_unchanged | intros e' [= <-]; exact Harg].
  - destruct (refusals (fs w) !! keyFile) as [[made | | remains] |];
      cbn [fst snd].
    2:{ split; [| intros e [= <-]; reflexivity].
        split; [reflexivity |]. split; [reflexivity |]. split; [reflexivity |].
        split; [eexists; reflexivity |].
        intros e [= <-]. split; [reflexivity |].
        intros _ Hopen. destruct Hopen. reflexivity. }
    all: split; [| intros e [=]];
      (split; [reflexivity |]);
      (split; [intros path Hpath; cbn [fs files store];
               apply lookup_insert_ne; congruence |]);
      (split; [reflexivity |]);
      (split; [eexists; reflexivity | intros e [=]]).
Qed.

Lemma createKeyFile_effect (keyFile : string) (seed : Seed) (w : World) :
  commandEffect keyFile w (createKeyFile keyFile seed w).1
    (createKeyFile keyFile seed w).2
  /\ (forall e, (createKeyFile keyFile seed w).1 = Throw e ->
        isArgumentError e = false).
Proof.
  rewrite createKeyFile_cases. destruct (exists_ (fs w) keyFile).
  { split; [apply effect_unchanged | intros e [= <-]; reflexivity]. }
  destruct (writeToFile keyFile (fs w) (ValidatorKeys_new ed25519 seed))
    as [[r fs'] keys'] eqn:Hwrite.
  destruct (writeToFile_effect _ _ _ _ _ _ Hwrite)
    as (_ & Hrefusals & Hdirs & Hfiles).
  cbn [fst]. destruct r as [[] | e]; cbn [fst snd].
  - split; [| intros e [=]].
    split; [exact Hrefusals |].
    split; [intros path Hpath; cbn [fs]; rewrite Hfiles;
            apply lookup_insert_ne; congruence |].
    split; [exact Hdirs |]. split; [eexists; reflexivity | intros e [=]].
  - destruct Hfiles as [Hfiles Hwhich].
    split; [| intros e' [= <-]; destruct Hwhich as [-> | ->]; reflexivity].
    split; [exact Hrefusals |].
    split; [intros path _; cbn [fs]; rewrite Hfiles; reflexivity |].
    split; [exact Hdirs |].
    split; [exists EmptyString; symmetry; apply append_empty_r |].
    intros e' [= <-]. split; [exact Hfiles |].
    intros Hdir Hopen. destruct Hwhich as [-> | ->];
      [destruct (Hdir (parent_path keyFile)) | destruct Hopen]; reflexivity.
Qed.

(** [runCommand] has the effect of the command it runs; it returns 0 when
    the command returns. *)
Lemma runCommand_effect (args : list string) (keyFile : string) (seed : Seed)
    (w : World) :
  commandEffect keyFile w (runCommand args keyFile seed w).1
    (runCommand args keyFile seed w).2
  /\ (forall status, (runCommand args keyFile seed w).1 = OK status -> status = 0).
Proof.
  assert (Hstep : forall (r0 : Result unit) (w0 : World),
    commandEffect keyFile w r0 w0 ->
    commandEffect keyFile w (_ ← r0; @OK Z 0) w0
    /\ (forall status, (_ ← r0; @OK Z 0) = OK status -> status = 0)).
  { intros r0 w0 (Href & Hfiles & Hdirs & Hout & Hthrow).
    split.
    - split; [exact Href |]. split; [exact Hfiles |]. split; [exact Hdirs |].
      split; [exact Hout |].
      destruct r0 as [[] | e0]; [intros e [=] |].
      intros e [= <-]. apply Hthrow. reflexivity.
    - destruct r0 as [[] | e0]; [intros status [= <-]; reflexivity
                                | intros status [=]]. }
  destruct args as [| command [| second more]];
    [split; [apply effect_unchanged | intros status [=]] |
    | split; [apply effect_unchanged | intros status [=]]].
  rewrite runCommand_one.
  destruct (decide (command = "create_master_keys")) as [_ | _];
    [apply Hstep; apply createKeyFile_effect |].
  destruct (decide (command = "create_signing_keys")) as [_ | _];
    [apply Hstep; apply signManifest_effect |].
  destruct (decide (command = "revoke_master_keys")) as [_ | _];
    [apply Hstep; apply signManifest_effect |].
  split; [apply effect_unchanged | intros status [=]].
Qed.

(** The commands themselves never throw an error of the arguments. *)
Lemma runCommand_known (command keyFile : string) (seed : Seed) (w : World)
    (e : Error) :
  isCommand command = true ->
  (runCommand [command] keyFile seed w).1 = Throw e ->
  isArgumentError e = false.
Proof.
  assert (Hstep : forall (r0 : Result unit) (w0 : World),
    (forall e0, r0 = Throw e0 -> isArgumentError e0 = false) ->
    ((_ ← r0; OK 0), w0).1 = Throw e -> isArgumentError e = false).
  { intros [[] | e0] w0 H; simpl; [discriminate |].
    intros [= <-]. apply H. reflexivity. }
  intros Hknown. rewrite runCommand_one.
  destruct (decide (command = "create_master_keys")) as [_ | Hc];
    [apply Hstep; apply createKeyFile_effect |].
  destruct (decide (command = "create_signing_keys")) as [_ | Hs];
    [apply Hstep; apply signManifest_effect |].
  destruct (decide (command = "revoke_master_keys")) as [_ | Hr];
    [apply Hstep; apply signManifest_effect |].
  unfold isCommand in Hknown.
  rewrite !bool_decide_eq_false_2 in Hknown by assumption. discriminate.
Qed.

(** [runCommand] throws an error of its arguments exactly when they
    are not one of the three commands alone: no argument, more than one, or
    an unknown command; the world is then as it was.  A command that is run
    never fails with one of these errors. *)
Theorem runCommand_argument_errors (keyFile : string) (seed : Seed) (w : World) :
  runCommand [] keyFile seed w = (Throw NoCommandSpecified, w)
  /\ (forall first second more,
        runCommand (first :: second :: more) keyFile seed w
        = (Throw WrongNumberOfParameters, w))
  /\ (forall command, isCommand command = false ->
        runCommand [command] keyFile seed w = (Throw UnknownCommand, w))
  /\ (forall command e, isCommand command = true ->
        (runCommand [command] keyFile seed w).1 = Throw e ->
        isArgumentError e = false).
Proof.
  split; [reflexivity |]. split; [reflexivity |]. split.
  - intros command Hunknown. rewrite runCommand_one.
    unfold isCommand in Hunknown.
    apply orb_false_elim in Hunknown as [Hunknown Hr].
    apply orb_false_elim in Hunknown as [Hc Hs].
    apply bool_decide_eq_false in Hc, Hs, Hr.
    destruct (decide (command = "create_master_keys")); [contradiction |].
    destruct (decide (command = "create_signing_keys")); [contradiction |].
    destruct (decide (command = "revoke_master_keys")); [contradiction |].
    reflexivity.
  - intros command e. apply runCommand_known.
Qed.

(** Whatever its arguments, [runCommand] leaves every file but the
    key file as it was, changes nothing of what the file system refuses,
    and only adds to standard output; when it returns, it returns 0. *)
Theorem runCommand_touches_only_key_file (args : list string) (keyFile : string)
    (seed : Seed) (w : World) :
  refusals (fs (runCommand args keyFile seed w).2) = refusals (fs w)
  /\ (forall path, path <> keyFile ->
        files (fs (runCommand args keyFile seed w).2) !! path
        = files (fs w) !! path)
  /\ (exists printed,
        cout (runCommand args keyFile seed w).2 = cout w +:+ printed)
  /\ (forall status, (runCommand args keyFile seed w).1 = OK status -> status = 0).
Proof.
  destruct (runCommand_effect args keyFile seed w)
    as ((Href & Hfiles & _ & Hout & _) & Hstatus).
  repeat split; assumption.
Qed.

(** A command that fails leaves every file as it was: no key file is
    made, none is changed or emptied.  Directories can have been made, those
    above the key file when it then did not open; nothing that the file
    system refuses has changed.  The command has left the whole world as it
    was, output included, unless it failed writing the key file. *)
Theorem runCommand_failure_keeps_files (args : list string) (keyFile : string)
    (seed : Seed) (w w' : World) (e : Error) :
  runCommand args keyFile seed w = (Throw e, w') ->
  files (fs w') = files (fs w)
  /\ refusals (fs w') = refusals (fs w)
  /\ directories (fs w) ⊆ directories (fs w')
  /\ ((forall parent, e <> CannotCreateDirectory parent) ->
      e <> CannotOpenKeyFile keyFile -> w' = w).
Proof.
  intros Hrun.
  destruct (runCommand_effect args keyFile seed w)
    as ((Href & _ & Hdirs & _ & Hthrow) & _).
  rewrite Hrun in *. cbn [fst snd] in *.
  destruct (Hthrow e eq_refl) as [Hfiles Hworld].
  repeat split; assumption.
Qed.

(** A sequence step keeps the sequence a [std::uint32_t], when what is
    requested is one. *)
Lemma advanceSequence_uint32 (requested : option Z) (keys keys' : ValidatorKeys) :
  is_uint32 (sequence_ keys) ->
  (forall s, requested = Some s -> is_uint32 s) ->
  advanceSequence requested keys = (OK tt, keys') ->
  is_uint32 (sequence_ keys').
Proof.
  intros [Hlo Hhi] Hreq Hstep. destruct requested as [s |].
  - rewrite advanceSequence_Some in Hstep.
    destruct (s <=? sequence_ keys); [discriminate |].
    injection Hstep as <-. simpl. apply Hreq. reflexivity.
  - rewrite advanceSequence_None in Hstep.
    destruct (Z.eqb_spec (sequence_ keys) UINT32_MAX); [discriminate |].
    injection Hstep as <-. simpl.
    unfold is_uint32, wrap32. rewrite Z.mod_small; unfold UINT32_MAX in *; lia.
Qed.

Lemma make_ValidatorKeys_exists (keyFile : string) (fs : FileSystem)
    (keys : ValidatorKeys) :
  make_ValidatorKeys keyFile fs = OK keys -> exists_ fs keyFile = true.
Proof.
  intros H. unfold exists_.
  rewrite (is_regular_file_Some _ _ (make_ValidatorKeys_is_file _ _ _ H)).
  reflexivity.
Qed.

(** The key file after [signManifest], when it held keys before. *)
Lemma signManifest_keeps_key_material (keyFile : string) (requested : option Z)
    (seed : Seed) (w : World) (keys : ValidatorKeys) :
  Base58RoundTrip ->
  make_ValidatorKeys keyFile (fs w) = OK keys ->
  is_uint32 (sequence_ keys) ->
  (forall remains, refusals (fs w) !! keyFile <> Some (WriteLost remains)) ->
  (forall s, requested = Some s -> is_uint32 s) ->
  exists keys' : ValidatorKeys,
    make_ValidatorKeys keyFile (fs (signManifest keyFile requested seed w).2)
    = OK keys'
    /\ keyType_ keys' = keyType_ keys
    /\ masterSecret_ keys' = masterSecret_ keys
    /\ validationPublicKey_ keys' = validationPublicKey_ keys
    /\ sequence_ keys <= sequence_ keys'
    /\ is_uint32 (sequence_ keys').
Proof.
  intros Hb58 Hload Hrange Hreached Hreq.
  assert (Hsame : exists keys' : ValidatorKeys,
    make_ValidatorKeys keyFile (fs w) = OK keys'
    /\ keyType_ keys' = keyType_ keys
    /\ masterSecret_ keys' = masterSecret_ keys
    /\ validationPublicKey_ keys' = validationPublicKey_ keys
    /\ sequence_ keys <= sequence_ keys'
    /\ is_uint32 (sequence_ keys')).
  { exists keys. repeat split; try assumption; try apply Hrange. lia. }
  destruct (signManifest_cases keyFile requested seed w)
    as [(e & _ & _ & ->) | [(keys0 & e & _ & _ & _ & ->)
                           | (keys0 & keys' & Hload0 & Hstep & ->)]];
    [exact Hsame | exact Hsame |].
  rewrite Hload in Hload0. injection Hload0 as <-.
  destruct (advanceSequence_increases _ _ _ Hrange Hstep)
    as (Hlt & Hkt & Hms & Hpk).
  destruct (make_ValidatorKeys_valid _ _ _ Hload) as [Hvalid Hderived].
  assert (Hwritten : make_ValidatorKeys keyFile
            (store (fs w) keyFile (JsonDocument (writeToFile_json keys').1))
          = OK keys').
  { unfold make_ValidatorKeys, store. cbn [files]. rewrite lookup_insert_eq.
    apply make_ValidatorKeys_json_writeToFile_json; [exact Hb58 | |].
    - rewrite Hkt. exact Hvalid.
    - unfold Derived in *. rewrite Hkt, Hms, Hpk. exact Hderived. }
  unfold streamed.
  destruct (refusals (fs w) !! keyFile) as [[made | | remains] |] eqn:Hrefused;
    [| exact Hsame | destruct (Hreached remains); reflexivity |].
  all: exists keys'; split; [exact Hwritten |].
  all: repeat split; try assumption; try lia;
    apply (advanceSequence_uint32 _ _ _ Hrange Hreq Hstep).
Qed.

(** No command changes the identity of a key file that holds one, as long
    as what is written to the file reaches it: whatever the arguments, the
    file still loads afterwards, to keys of the same key type, master secret
    and public key, at a sequence that is not below the one before and is a
    [std::uint32_t].  The proviso is needed: the file is emptied when it is
    opened and the write is not checked, so a write that is lost leaves a
    file that is no key file. *)
Theorem runCommand_keeps_key_material (args : list string) (keyFile : string)
    (seed : Seed) (w : World) (keys : ValidatorKeys) :
  Base58RoundTrip ->
  make_ValidatorKeys keyFile (fs w) = OK keys ->
  is_uint32 (sequence_ keys) ->
  (forall remains, refusals (fs w) !! keyFile <> Some (WriteLost remains)) ->
  exists keys' : ValidatorKeys,
    make_ValidatorKeys keyFile (fs (runCommand args keyFile seed w).2) = OK keys'
    /\ keyType_ keys' = keyType_ keys
    /\ masterSecret_ keys' = masterSecret_ keys
    /\ validationPublicKey_ keys' = validationPublicKey_ keys
    /\ sequence_ keys <= sequence_ keys'
    /\ is_uint32 (sequence_ keys').
Proof.
  intros Hb58 Hload Hrange Hreached.
  assert (Hsame : exists keys' : ValidatorKeys,
    make_ValidatorKeys keyFile (fs w) = OK keys'
    /\ keyType_ keys' = keyType_ keys
    /\ masterSecret_ keys' = masterSecret_ keys
    /\ validationPublicKey_ keys' = validationPublicKey_ keys
    /\ sequence_ keys <= sequence_ keys'
    /\ is_uint32 (sequence_ keys')).
  { exists keys. repeat split; try assumption; try apply Hrange. lia. }
  destruct args as [| command [| second more]]; [exact Hsame | | exact Hsame].
  rewrite runCommand_one.
  destruct (decide (command = "create_master_keys")) as [_ | _].
  { cbn [snd]. rewrite createKeyFile_cases.
    rewrite (make_ValidatorKeys_exists _ _ _ Hload). exact Hsame. }
  destruct (decide (command = "create_signing_keys")) as [_ | _].
  { cbn [snd].
    apply (signManifest_keeps_key_material _ None _ _ _ Hb58 Hload Hrange
             Hreached).
    intros s [=]. }
  destruct (decide (command = "revoke_master_keys")) as [_ | _]; [| exact Hsame].
  cbn [snd].
  apply (signManifest_keeps_key_material _ (Some UINT32_MAX) _ _ _ Hb58 Hload
           Hrange Hreached).
  intros s [= <-]. unfold is_uint32, UINT32_MAX. lia.
Qed.


(** The paths above [p] are no longer than [p]. *)
Lemma ancestors_length (n : nat) (p x : string) :
  ParentPathShorter -> x ∈ ancestors n p ->
  (String.length x <= String.length p)%nat.
Proof.
  intros Hshorter. revert p. induction n as [| n IH]; intros p; cbn [ancestors].
  { intros H. apply elem_of_nil in H. destruct H. }
  destruct (decide (p = EmptyString)) as [_ | _].
  { intros H. apply elem_of_nil in H. destruct H. }
  intros H. apply elem_of_cons in H as [-> | H]; [lia |].
  destruct n as [| n']; [apply elem_of_nil in H; destruct H |].
  destruct (decide (parent_path p = EmptyString)) as [Hempty | Hparent].
  { rewrite Hempty in H. cbn [ancestors] in H.
    destruct (decide (EmptyString = EmptyString)) as [_ | Hne];
      [apply elem_of_nil in H; destruct H | destruct Hne; reflexivity]. }
  specialize (IH _ H). specialize (Hshorter p Hparent). lia.
Qed.

Lemma ancestors_self (p : string) :
  p <> EmptyString -> p ∈ ancestors (String.length p) p.
Proof.
  intros Hne. destruct p as [| c p]; [contradiction |].
  cbn [String.length ancestors].
  destruct (decide (String c p = EmptyString)) as [Heq | _]; [discriminate |].
  apply elem_of_cons. left. reflexivity.
Qed.

(** A write that returned: the directory was passed, the file opened, and
    any other keys would have been written the same way. *)
Lemma writeToFile_OK_inv (keyFile : string) (fs fs' : FileSystem)
    (keys : ValidatorKeys) :
  (writeToFile keyFile fs keys).1 = (OK tt, fs') ->
  exists made : FileSystem,
    files made = files fs
    /\ refusals made = refusals fs
    /\ refusals fs !! keyFile <> Some OpenRefused
    /\ (forall keys2,
          writeToFile keyFile fs keys2
          = ((OK tt,
              store made keyFile (streamed keyFile (writeToFile_json keys2).1 fs)),
             keys2)).
Proof.
  unfold writeToFile, bind, ret. rewrite writeToFile_json_eq. cbn [fst snd].
  destruct (makeParentDirectory keyFile fs) as [r1 fs1] eqn:Hdir.
  destruct (makeParentDirectory_effect _ _ _ _ Hdir)
    as (Hfiles & Hrefusals & _ & _).
  destruct r1 as [[] | e1]; [| discriminate].
  unfold ofstream_open.
  destruct (negb (is_regular_file fs1 keyFile) && is_directory fs1 keyFile);
    [discriminate |].
  intros Hopen. exists fs1. split; [exact Hfiles |]. split; [exact Hrefusals |].
  rewrite Hrefusals in Hopen.
  split; [intros Hrefused; rewrite Hrefused in Hopen; discriminate |].
  intros keys2. rewrite writeToFile_json_eq. cbn [fst snd].
  unfold ofstream_write. rewrite Hrefusals.
  destruct (refusals fs !! keyFile) as [[made | | remains] |] eqn:Hrefused;
    [| discriminate | |];
    rewrite store_store; unfold streamed; cbn [refusals store];
    rewrite Hrefusals, Hrefused; reflexivity.
Qed.

(** [writeToFile] where nothing is yet: the directory is made when it is
    missing, and the file opens when the file system refuses neither. *)
Lemma writeToFile_fresh (keyFile : string) (fs : FileSystem)
    (keys : ValidatorKeys) :
  ParentPathShorter ->
  exists_ fs keyFile = false ->
  refusals fs !! keyFile = None ->
  refusals fs !! parent_path keyFile = None ->
  files fs !! parent_path keyFile = None ->
  exists fs', (writeToFile keyFile fs keys).1 = (OK tt, fs').
Proof.
  intros Hshorter Hnone Hfree Hfreedir Hnofile.
  unfold exists_ in Hnone. apply orb_false_elim in Hnone as [Hnofile' Hnodir].
  unfold is_directory in Hnodir.
  apply orb_false_elim in Hnodir as [Hnotdir Hholds].
  apply bool_decide_eq_false in Hnotdir.
  assert (Hopen : forall fs1 : FileSystem,
    files fs1 = files fs -> refusals fs1 = refusals fs ->
    keyFile ∉ directories fs1 ->
    ofstream_open keyFile fs1 = Some (store fs1 keyFile NotJson)).
  { intros fs1 Hf Hr Hd. unfold ofstream_open, is_directory.
    replace (holdsFile fs1 keyFile) with (holdsFile fs keyFile)
      by (unfold holdsFile; rewrite Hf; reflexivity).
    rewrite Hholds, orb_false_r.
    rewrite (bool_decide_eq_false_2 _ Hd).
    rewrite andb_false_r, Hr, Hfree. reflexivity. }
  unfold writeToFile, bind, ret. rewrite writeToFile_json_eq. cbn [fst snd].
  unfold makeParentDirectory.
  destruct (decide (parent_path keyFile = EmptyString)) as [_ | Hparent].
  { rewrite (Hopen fs eq_refl eq_refl Hnotdir). eexists; reflexivity. }
  destruct (exists_ fs (parent_path keyFile)) eqn:Hexists; cbn [negb].
  - unfold exists_, is_regular_file in Hexists.
    rewrite bool_decide_eq_false_2 in Hexists
      by (rewrite Hnofile; intros [c Hc]; discriminate).
    cbn [orb] in Hexists. rewrite Hexists. cbn [negb orb].
    rewrite (Hopen fs eq_refl eq_refl Hnotdir). eexists; reflexivity.
  - unfold create_directories. rewrite Hfreedir.
    unfold is_directory at 1.
    rewrite (bool_decide_eq_true_2
               (parent_path keyFile ∈ directories
                  (mkdirs fs (ancestors (String.length (parent_path keyFile))
                                (parent_path keyFile))))).
    2:{ cbn [directories mkdirs]. rewrite elem_of_union, elem_of_list_to_set.
        right. apply ancestors_self. exact Hparent. }
    cbn [negb orb]. rewrite Hopen; [eexists; reflexivity | reflexivity
                                   | reflexivity |].
    cbn [directories mkdirs]. rewrite elem_of_union, elem_of_list_to_set.
    intros [Hin | Hin]; [exact (Hnotdir Hin) |].
    pose proof (ancestors_length _ _ _ Hshorter Hin) as Hle.
    specialize (Hshorter keyFile Hparent). lia.
Qed.

(** [createKeyFile] returns only where there was no file or directory, and
    has then printed one line; the key file then loads to the new identity,
    at sequence 0, when the text has reached it.  It does return where there
    is nothing at the path, the path above it is no file, and the file
    system refuses neither the directory nor the file. *)
Theorem createKeyFile_creates (keyFile : string) (seed : Seed) (w : World) :
  Base58RoundTrip -> GeneratedPairDerives -> ParentPathShorter ->
  ((createKeyFile keyFile seed w).1 = OK tt ->
   exists_ (fs w) keyFile = false
   /\ cout (createKeyFile keyFile seed w).2
      = cout w +:+ "Master validator keys stored in " +:+ keyFile +:+ endl
   /\ ((forall remains, refusals (fs w) !! keyFile <> Some (WriteLost remains)) ->
       make_ValidatorKeys keyFile (fs (createKeyFile keyFile seed w).2)
       = OK (ValidatorKeys_new ed25519 seed)
       /\ sequence_ (ValidatorKeys_new ed25519 seed) = 0))
  /\ (exists_ (fs w) keyFile = false ->
      refusals (fs w) !! keyFile = None ->
      refusals (fs w) !! parent_path keyFile = None ->
      files (fs w) !! parent_path keyFile = None ->
      (createKeyFile keyFile seed w).1 = OK tt).
Proof.
  intros Hb58 Hgen Hshorter. rewrite createKeyFile_cases.
  destruct (exists_ (fs w) keyFile) eqn:Hexists.
  { split; [discriminate | intros [=]]. }
  split.
  - destruct (writeToFile keyFile (fs w) (ValidatorKeys_new ed25519 seed))
      as [[r fs'] keys'] eqn:Hwrite.
    destruct (writeToFile_effect _ _ _ _ _ _ Hwrite) as (_ & _ & _ & Hfiles).
    cbn [fst]. destruct r as [[] | e]; [| discriminate].
    intros _. cbn [fst snd fs cout]. split; [reflexivity |].
    split; [reflexivity |]. intros Hreached. split; [| reflexivity].
    unfold make_ValidatorKeys. rewrite Hfiles, lookup_insert_eq.
    unfold streamed.
    destruct (refusals (fs w) !! keyFile) as [[made | | remains] |];
      try (destruct (Hreached remains); reflexivity);
      (apply (make_ValidatorKeys_json_writeToFile_json keyFile
                (ValidatorKeys_new ed25519 seed)); [exact Hb58 | discriminate |];
       unfold Derived, ValidatorKeys_new;
       cbn [validationPublicKey_ keyType_ masterSecret_]; apply Hgen).
  - intros _ Hfree Hfreedir Hnofile.
    destruct (writeToFile_fresh keyFile (fs w) (ValidatorKeys_new ed25519 seed)
                Hshorter Hexists Hfree Hfreedir Hnofile) as [fs' ->].
    reflexivity.
Qed.

(** Writing the key file replaces what it held: after a write that
    returned, writing other keys gives the file system that writing them at
    once would have given, no other file is touched, and the file loads to
    the keys written last when their text has reached it. *)
Theorem writeToFile_last_write_wins (keyFile : string) (fs fs1 : FileSystem)
    (first last : ValidatorKeys) :
  (writeToFile keyFile fs first).1 = (OK tt, fs1) ->
  writeToFile keyFile fs1 last = writeToFile keyFile fs last
  /\ (forall path, path <> keyFile -> files fs1 !! path = files fs !! path)
  /\ (Base58RoundTrip -> keyType_ last <> invalid -> Derived last ->
      (forall remains, refusals fs !! keyFile <> Some (WriteLost remains)) ->
      exists fs2, (writeToFile keyFile fs1 last).1 = (OK tt, fs2)
                  /\ make_ValidatorKeys keyFile fs2 = OK last).
Proof.
  intros Hfirst.
  destruct (writeToFile_OK_inv _ _ _ _ Hfirst)
    as (made & Hfiles & Hrefusals & Hopens & Hany).
  assert (Hfs1 : fs1 = store made keyFile
                         (streamed keyFile (writeToFile_json first).1 fs))
    by (rewrite (Hany first) in Hfirst; cbn [fst] in Hfirst; congruence).
  subst fs1. clear Hfirst.
  assert (Hagain : writeToFile keyFile
                     (store made keyFile
                        (streamed keyFile (writeToFile_json first).1 fs)) last
                   = writeToFile keyFile fs last).
  { rewrite writeToFile_existing
      by (cbn [files store]; rewrite lookup_insert_eq; eauto).
    assert (Hstreamed : forall jv c,
      streamed keyFile jv (store made keyFile c) = streamed keyFile jv fs).
    { intros jv c. unfold streamed. cbn [refusals store]. rewrite Hrefusals.
      reflexivity. }
    rewrite (Hany last), Hstreamed, store_store. cbn [refusals store].
    rewrite Hrefusals.
    destruct (refusals fs !! keyFile) as [[dirs | | remains] |] eqn:Hrefused;
      [reflexivity | destruct Hopens; reflexivity | reflexivity | reflexivity]. }
  split; [exact Hagain |].
  split; [intros path Hpath; cbn [files store]; rewrite Hfiles;
          apply lookup_insert_ne; congruence |].
  intros Hb58 Hvalid Hderived Hreached. rewrite Hagain, (Hany last).
  eexists. split; [reflexivity |].
  unfold make_ValidatorKeys. cbn [files store]. rewrite lookup_insert_eq.
  unfold streamed.
  destruct (refusals fs !! keyFile) as [[dirs | | remains] |];
    try (destruct (Hreached remains); reflexivity);
    apply (make_ValidatorKeys_json_writeToFile_json keyFile last Hb58 Hvalid
             Hderived).
Qed.

(** [signManifest] prints its report before it writes the key file.  Once
    the keys are loaded and the sequence has moved, the report for the new
    sequence is on standard output whatever becomes of the write.  The key
    file is there, so its directory is not made again, and the command
    throws only when the file does not open: the file system is then as it
    was, and the key file still holds the keys at the old sequence. *)
Theorem signManifest_prints_before_writing (keyFile : string)
    (requested : option Z) (seed : Seed) (w : World) (keys keys' : ValidatorKeys) :
  make_ValidatorKeys keyFile (fs w) = OK keys ->
  advanceSequence requested keys = (OK tt, keys') ->
  cout (signManifest keyFile requested seed w).2
  = cout w +:+ signManifestOutput keys' seed
  /\ (signManifest keyFile requested seed w).1
     = match refusals (fs w) !! keyFile with
       | Some OpenRefused => Throw (CannotOpenKeyFile keyFile)
       | _ => OK tt
       end
  /\ (refusals (fs w) !! keyFile = Some OpenRefused ->
        (signManifest keyFile requested seed w).1
        = Throw (CannotOpenKeyFile keyFile)
        /\ fs (signManifest keyFile requested seed w).2 = fs w
        /\ make_ValidatorKeys keyFile (fs (signManifest keyFile requested seed w).2)
           = OK keys)
  /\ (refusals (fs w) !! keyFile = None ->
        (signManifest keyFile requested seed w).1 = OK tt).
Proof.
  intros Hload Hstep.
  rewrite (signManifest_printed _ _ seed _ _ _ Hload Hstep).
  destruct (refusals (fs w) !! keyFile) as [[made | | remains] |];
    (split; [reflexivity |]); (split; [reflexivity |]);
    (split; [| first [discriminate | reflexivity]]); try discriminate.
  intros _. cbn [fst snd print fs]. repeat split. exact Hload.
Qed.

(** The key file is emptied when it is opened, and the write after that is
    not checked.  When the keys are loaded, the sequence has moved and the
    text is then lost on its way to the file, [signManifest] returns as if
    all were well, with the report printed; the key file holds what
    reached it, and when that is no JSON document the identity can no
    longer be loaded, nor made anew at this path. *)
Theorem lost_write_loses_key_file (keyFile : string) (requested : option Z)
    (seed seed' : Seed) (w : World) (keys keys' : ValidatorKeys)
    (remains : FileContent) :
  make_ValidatorKeys keyFile (fs w) = OK keys ->
  advanceSequence requested keys = (OK tt, keys') ->
  refusals (fs w) !! keyFile = Some (WriteLost remains) ->
  (signManifest keyFile requested seed w).1 = OK tt
  /\ cout (signManifest keyFile requested seed w).2
     = cout w +:+ signManifestOutput keys' seed
  /\ files (fs (signManifest keyFile requested seed w).2) !! keyFile
     = Some remains
  /\ (remains = NotJson ->
      make_ValidatorKeys keyFile (fs (signManifest keyFile requested seed w).2)
      = Throw (ParseFailure keyFile)
      /\ createKeyFile keyFile seed' (signManifest keyFile requested seed w).2
         = (Throw (RefusingToOverwrite keyFile),
            (signManifest keyFile requested seed w).2)).
Proof.
  intros Hload Hstep Hlost.
  rewrite (signManifest_printed _ _ seed _ _ _ Hload Hstep), Hlost.
  cbn [fst snd fs cout]. unfold streamed. rewrite Hlost.
  split; [reflexivity |]. split; [reflexivity |].
  split; [cbn [files store]; apply lookup_insert_eq |].
  intros ->. split.
  - unfold make_ValidatorKeys. cbn [files store]. rewrite lookup_insert_eq.
    reflexivity.
  - unfold createKeyFile, exists_. cbn [fs].
    rewrite is_regular_file_Some
      by (cbn [files store]; rewrite lookup_insert_eq; eauto).
    reflexivity.
Qed.

(** Signing from sequence 4294967294 is a revocation: the next
    sequence is 4294967295, so [create_signing_keys] does what
    [revoke_master_keys] does, prints the revocation warning, and the keys
    it signs are at the sequence after which nothing is signed. *)
Theorem signing_from_last_sequence_revokes (keyFile : string) (seed : Seed)
    (w : World) (keys : ValidatorKeys) :
  make_ValidatorKeys keyFile (fs w) = OK keys ->
  sequence_ keys = UINT32_MAX - 1 ->
  runCommand ["create_signing_keys"] keyFile seed w
  = runCommand ["revoke_master_keys"] keyFile seed w
  /\ cout (runCommand ["create_signing_keys"] keyFile seed w).2
     = cout w +:+ revocationWarning
         +:+ signManifestReport (withSequence keys UINT32_MAX)
               (createEphemeralKeys secp256k1 seed (withSequence keys UINT32_MAX)).1
  /\ advanceSequence None (withSequence keys UINT32_MAX)
     = (Throw SequenceExhausted, withSequence keys UINT32_MAX).
Proof.
  intros Hload Hseq.
  assert (Hnext : advanceSequence None keys = (OK tt, withSequence keys UINT32_MAX)).
  { rewrite advanceSequence_None, Hseq. reflexivity. }
  assert (Hrevoke : advanceSequence (Some UINT32_MAX) keys
                    = (OK tt, withSequence keys UINT32_MAX)).
  { rewrite advanceSequence_Some, Hseq. reflexivity. }
  rewrite !runCommand_one. simpl decide. cbv iota.
  rewrite (signManifest_printed _ _ seed _ _ _ Hload Hnext).
  rewrite (signManifest_printed _ _ seed _ _ _ Hload Hrevoke).
  split; [reflexivity |]. split; [| reflexivity].
  unfold signManifestOutput.
  change (sequence_ (withSequence keys UINT32_MAX) =? UINT32_MAX) with true.
  cbv iota.
  destruct (refusals (fs w) !! keyFile) as [[made | | remains] |]; reflexivity.
Qed.


(** The report of [signManifest] shows the seed of the ephemeral
    key, its public key and the sequence number, then the manifest in lines
    of at most 72 characters.  These lines, put together and decoded, are
    the record that was signed: its sequence is the one the report shows,
    its master public key is the one of the keys, its ephemeral public key
    is the one the report shows. *)
Theorem report_shows_signed_manifest (keys : ValidatorKeys) (seed : Seed) :
  SerializerRoundTrip -> Base64RoundTrip ->
  exists (lines : list string) (st : STObject),
    signManifestReport keys (createEphemeralKeys secp256k1 seed keys).1
    = ("Update rippled.cfg file with these values:" +:+ endl +:+ endl)
      +:+ ("[validation_seed]" +:+ endl +:+ toBase58_Seed seed +:+ endl)
      +:+ ("# validation_public_key: "
             +:+ toBase58_NODE_PUBLIC
                   (derivePublicKey secp256k1 (generateSecretKey secp256k1 seed))
             +:+ endl)
      +:+ ("# sequence number: " +:+ pretty (sequence_ keys) +:+ endl +:+ endl)
      +:+ ("[validation_manifest]" +:+ endl)
      +:+ printedLines lines +:+ endl
    /\ Forall (fun line => (0 < String.length line <= 72)%nat) lines
    /\ decodeManifest (joinLines lines) = Some st
    /\ STObject_get st sfSequence = Some (STUInt32 (sequence_ keys))
    /\ STObject_get st sfPublicKey = Some (STBlob (validationPublicKey_ keys))
    /\ STObject_get st sfSigningPubKey
       = Some (STBlob (derivePublicKey secp256k1
                         (generateSecretKey secp256k1 seed))).
Proof.
  intros Hser Hb64.
  pose proof (decodeManifest_createEphemeralKeys keys secp256k1 seed Hser Hb64)
    as Hdecode.
  unfold signManifestReport. rewrite createEphemeralKeys_eq in *.
  cbn [fst eph_seed eph_manifest eph_validationPublicKey] in *.
  set (manifest := base64_encode (STObject_add (signedManifest keys secp256k1 seed)))
    in *.
  destruct (printWrapped_decomposes (String.length manifest) 72 manifest)
    as (lines & Hprint & Hjoin & Hall & _); [lia | lia |].
  exists lines, (signedManifest keys secp256k1 seed).
  split; [rewrite Hprint; reflexivity |]. split; [exact Hall |].
  split; [rewrite Hjoin; exact Hdecode |].
  rewrite signedManifest_eq. repeat split.
Qed.

End Outcomes.

(** ** [main] *)

Section Main.
Context `{L : RippleLib}.

(** When the command line parses and no unit test is asked for,
    [main] returns 0, also when the command throws: the error is then one
    line on standard error, and the world is as the command left it.  A
    command that returns leaves standard error as it was. *)
Theorem main_returns_zero (vm : variables_map) (desc : string)
    (env : gmap string string) (run_each : Process -> bool * Process)
    (seed : Seed) (p : Process) :
  vm_unittest vm = None ->
  (main (Parsed vm) desc env run_each seed p).1 = 0
  /\ (forall parameters,
        vm_help vm = false -> vm_parameters vm = Some parameters ->
        let keyFile :=
          match vm_keyfile vm with
          | Some keyfile => keyfile
          | None => getEnvVar env "HOME" +:+ "/.ripple/validator-keys.json"
          end in
        world (main (Parsed vm) desc env run_each seed p).2
        = (runCommand parameters keyFile seed (world p)).2
        /\ cerr (main (Parsed vm) desc env run_each seed p).2
           = match (runCommand parameters keyFile seed (world p)).1 with
             | OK _ => cerr p
             | Throw e => cerr p +:+ what e +:+ endl
             end).
Proof.
  intros Hunit. unfold main. rewrite Hunit. split.
  - destruct (vm_help vm); [reflexivity |].
    destruct (vm_parameters vm) as [parameters |]; [| reflexivity].
    cbv zeta.
    destruct (runCommand_effect parameters
                match vm_keyfile vm with
                | Some keyfile => keyfile
                | None => getEnvVar env "HOME" +:+ "/.ripple/validator-keys.json"
                end seed (world p)) as [_ Hstatus].
    destruct (runCommand parameters _ seed (world p)) as [[status | e] w'];
      [| reflexivity].
    cbn [fst]. apply Hstatus. reflexivity.
  - intros parameters -> ->. cbv zeta.
    destruct (runCommand parameters _ seed (world p)) as [[status | e] w'];
      split; reflexivity.
Qed.

(** When no unit test is asked for, [main] leaves every file but the
    key file it selected as it was: the one of [--keyfile], and without it
    [.ripple/validator-keys.json] under [HOME], or under the root when
    [HOME] is not set.  With [--help] or without a command it leaves the
    world as it was and prints the help on standard error. *)
Theorem main_touches_only_key_file (vm : variables_map) (desc : string)
    (env : gmap string string) (run_each : Process -> bool * Process)
    (seed : Seed) (p : Process) :
  vm_unittest vm = None ->
  (forall path,
     path <> match vm_keyfile vm, env !! "HOME" with
             | Some keyfile, _ => keyfile
             | None, Some home => home +:+ "/.ripple/validator-keys.json"
             | None, None => "/.ripple/validator-keys.json"
             end ->
     files (fs (world (main (Parsed vm) desc env run_each seed p).2)) !! path
     = files (fs (world p)) !! path)
  /\ (vm_help vm = true \/ vm_parameters vm = None ->
      main (Parsed vm) desc env run_each seed p = (0, printHelp desc p)
      /\ world (printHelp desc p) = world p).
Proof.
  intros Hunit. unfold main. rewrite Hunit. split.
  - intros path Hpath.
    destruct (vm_help vm); [reflexivity |].
    destruct (vm_parameters vm) as [parameters |]; [| reflexivity].
    cbv zeta.
    assert (Hfile : match vm_keyfile vm with
                    | Some keyfile => keyfile
                    | None => getEnvVar env "HOME" +:+ "/.ripple/validator-keys.json"
                    end
                    = match vm_keyfile vm, env !! "HOME" with
                      | Some keyfile, _ => keyfile
                      | None, Some home => home +:+ "/.ripple/validator-keys.json"
                      | None, None => "/.ripple/validator-keys.json"
                      end).
    { unfold getEnvVar. destruct (vm_keyfile vm); [reflexivity |].
      destruct (env !! "HOME"); reflexivity. }
    rewrite Hfile. clear Hfile.
    set (keyFile := match vm_keyfile vm, env !! "HOME" with
                    | Some keyfile, _ => keyfile
                    | None, Some home => home +:+ "/.ripple/validator-keys.json"
                    | None, None => "/.ripple/validator-keys.json"
                    end) in *.
    destruct (runCommand_effect parameters keyFile seed (world p))
      as ((_ & Hfiles & _) & _).
    specialize (Hfiles path Hpath).
    destruct (runCommand parameters keyFile seed (world p)) as [[status | e] w'];
      exact Hfiles.
  - intros [Hhelp | Hnone].
    + rewrite Hhelp. split; reflexivity.
    + rewrite Hnone. destruct (vm_help vm); split; reflexivity.
Qed.

End Main.

Lemma printWrapped_lines_witness :
  exists lines : list string,
    printWrapped 5 2 "abcde" = printedLines lines
    /\ joinLines lines = "abcde"
    /\ Forall (fun line => (0 < String.length line <= 2)%nat) lines
    /\ (forall (i : nat) (line : string),
          lines !! i = Some line -> (S i < length lines)%nat ->
          String.length line = 2%nat).
Proof. apply (printWrapped_lines 2 "abcde"). lia. Defined.

Lemma runCommand_failure_keeps_files_witness :
  files (fs (TestFiles.run "create_master_keys" TestFiles.unwritableWorld).2)
  = files (fs TestFiles.unwritableWorld)
  /\ directories (fs TestFiles.unwritableWorld)
     ⊆ directories
         (fs (TestFiles.run "create_master_keys" TestFiles.unwritableWorld).2).
Proof.
  destruct (runCommand_failure_keeps_files (L := Toy.lib)
              ["create_master_keys"] TestFiles.keyFile Toy.ephSeed
              TestFiles.unwritableWorld
              (TestFiles.run "create_master_keys" TestFiles.unwritableWorld).2
              (CannotOpenKeyFile TestFiles.keyFile))
    as (Hfiles & _ & Hdirectories & _).
  - vm_compute. reflexivity.
  - split; [exact Hfiles | exact Hdirectories].
Defined.

Lemma runCommand_keeps_key_material_witness :
  exists keys' : ValidatorKeys (L := Toy.lib),
    TestFiles.keysIn
      (TestFiles.run "revoke_master_keys"
         (TestFiles.worldWith (writeToFile_json (Toy.keysAt 5)).1)).2
    = OK keys'
    /\ masterSecret_ keys' = masterSecret_ (Toy.keysAt 5)
    /\ 5 <= sequence_ keys'.
Proof.
  destruct (runCommand_keeps_key_material (L := Toy.lib)
              ["revoke_master_keys"] TestFiles.keyFile Toy.ephSeed
              (TestFiles.worldWith (writeToFile_json (Toy.keysAt 5)).1)
              (Toy.keysAt 5) Toy_base58_round_trip)
    as (keys' & Hload & _ & Hsecret & _ & Hle & _).
  - vm_compute. reflexivity.
  - unfold is_uint32, UINT32_MAX. simpl. lia.
  - intros remains Hlost. vm_compute in Hlost. discriminate Hlost.
  - exists keys'. split; [exact Hload |]. split; [exact Hsecret | exact Hle].
Defined.

Lemma createKeyFile_creates_witness :
  (createKeyFile (L := Toy.lib) TestFiles.keyFile Toy.ephSeed
     TestFiles.emptyWorld).1 = OK tt
  /\ make_ValidatorKeys (L := Toy.lib) TestFiles.keyFile
       (fs (createKeyFile (L := Toy.lib) TestFiles.keyFile Toy.ephSeed
              TestFiles.emptyWorld).2)
     = OK (ValidatorKeys_new (L := Toy.lib) ed25519 Toy.ephSeed).
Proof.
  destruct (createKeyFile_creates (L := Toy.lib) TestFiles.keyFile Toy.ephSeed
              TestFiles.emptyWorld Toy_base58_round_trip
              Toy_generated_pair_derives Toy_parent_path_shorter)
    as [Hreturned Hreturns].
  assert (Hok : (createKeyFile (L := Toy.lib) TestFiles.keyFile Toy.ephSeed
                   TestFiles.emptyWorld).1 = OK tt).
  { apply Hreturns; vm_compute; reflexivity. }
  split; [exact Hok |].
  destruct (Hreturned Hok) as (_ & _ & Hloads).
  apply Hloads. intros remains Hlost. vm_compute in Hlost. discriminate Hlost.
Defined.

Lemma writeToFile_last_write_wins_witness :
  writeToFile (L := Toy.lib) TestFiles.keyFile
    (writeToFile (L := Toy.lib) TestFiles.keyFile (fs TestFiles.emptyWorld)
       (Toy.keysAt 0)).1.2
    (Toy.keysAt 1)
  = writeToFile (L := Toy.lib) TestFiles.keyFile (fs TestFiles.emptyWorld)
      (Toy.keysAt 1).
Proof.
  refine (proj1 (writeToFile_last_write_wins (L := Toy.lib) TestFiles.keyFile
            (fs TestFiles.emptyWorld) _ (Toy.keysAt 0) (Toy.keysAt 1) _)).
  vm_compute. reflexivity.
Defined.

Lemma signManifest_prints_before_writing_witness :
  (signManifest (L := Toy.lib) TestFiles.keyFile None Toy.ephSeed
     (TestFiles.readOnlyWorld (writeToFile_json (Toy.keysAt 5)).1)).1
  = Throw (CannotOpenKeyFile TestFiles.keyFile)
  /\ cout (signManifest (L := Toy.lib) TestFiles.keyFile None Toy.ephSeed
             (TestFiles.readOnlyWorld (writeToFile_json (Toy.keysAt 5)).1)).2
     = signManifestOutput (Toy.keysAt 6) Toy.ephSeed
  /\ TestFiles.keysIn
       (signManifest (L := Toy.lib) TestFiles.keyFile None Toy.ephSeed
          (TestFiles.readOnlyWorld (writeToFile_json (Toy.keysAt 5)).1)).2
     = OK (Toy.keysAt 5).
Proof.
  destruct (signManifest_prints_before_writing (L := Toy.lib) TestFiles.keyFile
              None Toy.ephSeed
              (TestFiles.readOnlyWorld (writeToFile_json (Toy.keysAt 5)).1)
              (Toy.keysAt 5) (Toy.keysAt 6))
    as (Hprinted & _ & Hrefused & _).
  - vm_compute. reflexivity.
  - reflexivity.
  - destruct Hrefused as (Hthrow & _ & Hkept); [vm_compute; reflexivity |].
    split; [exact Hthrow |]. split; [exact Hprinted | exact Hkept].
Defined.

Lemma lost_write_loses_key_file_witness :
  (signManifest (L := Toy.lib) TestFiles.keyFile None Toy.ephSeed
     (TestFiles.fullDiskWorld (writeToFile_json (Toy.keysAt 5)).1)).1 = OK tt
  /\ TestFiles.keysIn
       (signManifest (L := Toy.lib) TestFiles.keyFile None Toy.ephSeed
          (TestFiles.fullDiskWorld (writeToFile_json (Toy.keysAt 5)).1)).2
     = Throw (ParseFailure TestFiles.keyFile).
Proof.
  destruct (lost_write_loses_key_file (L := Toy.lib) TestFiles.keyFile
              None Toy.ephSeed Toy.ephSeed
              (TestFiles.fullDiskWorld (writeToFile_json (Toy.keysAt 5)).1)
              (Toy.keysAt 5) (Toy.keysAt 6) NotJson)
    as (Hreturns & _ & _ & Hlost).
  - vm_compute. reflexivity.
  - reflexivity.
  - vm_compute. reflexivity.
  - split; [exact Hreturns |]. apply Hlost. reflexivity.
Defined.

Lemma signing_from_last_sequence_revokes_witness :
  TestFiles.run "create_signing_keys"
    (TestFiles.worldWith (writeToFile_json (Toy.keysAt 4294967294)).1)
  = TestFiles.run "revoke_master_keys"
      (TestFiles.worldWith (writeToFile_json (Toy.keysAt 4294967294)).1).
Proof.
  refine (proj1 (signing_from_last_sequence_revokes (L := Toy.lib)
            TestFiles.keyFile Toy.ephSeed
            (TestFiles.worldWith (writeToFile_json (Toy.keysAt 4294967294)).1)
            (Toy.keysAt 4294967294) _ _)).
  - vm_compute. reflexivity.
  - reflexivity.
Defined.

Lemma report_shows_signed_manifest_witness :
  exists (lines : list string) (st : STObject),
    Forall (fun line => (0 < String.length line <= 72)%nat) lines
    /\ decodeManifest (L := Toy.lib) (joinLines lines) = Some st
    /\ STObject_get st sfSequence = Some (STUInt32 5).
Proof.
  destruct (report_shows_signed_manifest (L := Toy.lib) (Toy.keysAt 5)
              Toy.ephSeed Toy_serializer_round_trip Toy_base64_round_trip)
    as (lines & st & _ & Hshort & Hdecode & Hsequence & _).
  exists lines, st. split; [exact Hshort |].
  split; [exact Hdecode | exact Hsequence].
Defined.

Lemma main_returns_zero_witness :
  (main (L := Toy.lib) (Parsed (TestFiles.commandLine "create_signing_keys"))
     EmptyString ∅ TestFiles.passingTests Toy.ephSeed
     (TestFiles.processIn TestFiles.emptyWorld)).1 = 0
  /\ cerr (main (L := Toy.lib)
             (Parsed (TestFiles.commandLine "create_signing_keys"))
             EmptyString ∅ TestFiles.passingTests Toy.ephSeed
             (TestFiles.processIn TestFiles.emptyWorld)).2
     = "Failed to open key file: " +:+ TestFiles.keyFile +:+ endl.
Proof.
  destruct (main_returns_zero (L := Toy.lib)
              (TestFiles.commandLine "create_signing_keys") EmptyString ∅
              TestFiles.passingTests Toy.ephSeed
              (TestFiles.processIn TestFiles.emptyWorld) eq_refl)
    as [Hstatus Hcommand].
  split; [exact Hstatus |].
  destruct (Hcommand ["create_signing_keys"] eq_refl eq_refl) as [_ Hcerr].
  rewrite Hcerr. vm_compute. reflexivity.
Defined.

Lemma main_touches_only_key_file_witness :
  files (fs (world (main (L := Toy.lib)
                      (Parsed (TestFiles.commandLine "create_master_keys"))
                      EmptyString ∅ TestFiles.passingTests Toy.ephSeed
                      (TestFiles.processIn TestFiles.emptyWorld)).2))
    !! "rippled.cfg"
  = files (fs (world (TestFiles.processIn TestFiles.emptyWorld))) !! "rippled.cfg".
Proof.
  refine (proj1 (main_touches_only_key_file (L := Toy.lib)
            (TestFiles.commandLine "create_master_keys") EmptyString ∅
            TestFiles.passingTests Toy.ephSeed
            (TestFiles.processIn TestFiles.emptyWorld) eq_refl)
            "rippled.cfg" _).
  discriminate.
Defined.

(** The test's case of a key file that does not open (lines 296-309): the
    directory above it has been made all the same. *)
Example failed_create_leaves_directory :
  is_directory (L := Toy.lib) (fs TestFiles.unwritableWorld) "test_key_file"
  = false
  /\ (TestFiles.run "create_master_keys" TestFiles.unwritableWorld).1
     = Throw (CannotOpenKeyFile TestFiles.keyFile)
  /\ is_directory (L := Toy.lib)
       (fs (TestFiles.run "create_master_keys" TestFiles.unwritableWorld).2)
       "test_key_file"
     = true.
Proof.
  split; [vm_compute; reflexivity |].
  split; vm_compute; reflexivity.
Qed.

(** The test's case "Create key file directory" (lines 289-299): the
    directories above the key file are made, and the file gives the keys
    back. *)
Example test_create_key_file_directory :
  (writeToFile (L := Toy.lib)
     "test_key_file/directories/to/create/validator_keys.json"
     (fs TestFiles.emptyWorld) (Toy.keysAt 0)).1.1 = OK tt
  /\ is_directory (L := Toy.lib)
       (writeToFile (L := Toy.lib)
          "test_key_file/directories/to/create/validator_keys.json"
          (fs TestFiles.emptyWorld) (Toy.keysAt 0)).1.2
       "test_key_file/directories" = true
  /\ make_ValidatorKeys (L := Toy.lib)
       "test_key_file/directories/to/create/validator_keys.json"
       (writeToFile (L := Toy.lib)
          "test_key_file/directories/to/create/validator_keys.json"
          (fs TestFiles.emptyWorld) (Toy.keysAt 0)).1.2
     = OK (Toy.keysAt 0).
Proof.
  split; [vm_compute; reflexivity |].
  split; vm_compute; reflexivity.
Qed.

(** The test's case "Fail if parent directory is existing file" (lines
    311-325): the path above the key file is a file, no directory is made
    and the write throws. *)
Example test_parent_directory_is_file :
  writeToFile (L := Toy.lib)
    (TestFiles.keyFile +:+ "/validators_keys.json")
    (fs (TestFiles.worldWith (writeToFile_json (Toy.keysAt 0)).1))
    (Toy.keysAt 0)
  = ((Throw (CannotCreateDirectory TestFiles.keyFile),
      fs (TestFiles.worldWith (writeToFile_json (Toy.keysAt 0)).1)),
     Toy.keysAt 0).
Proof. vm_compute. reflexivity. Qed.
